(* ===== verification/_CoqProject ===== *)
-Q . S2P
Prelude.v
JsString.v
Regex.v
Patterns.v
Form.v
Validation.v
DateOfBirth.v
JsValue.v
Payload.v
Json.v
Submission.v
Revalidate.v
