(* ===== verification/Prelude.v ===== *)
(** * A verification development of the registration form

    The repository is a React page with one component that has logic,
    [src/src/components/RegistrationForm.jsx]: a form of eight fields
    (full name, contact number, day/month/year selects, email, password,
    confirmation) registered with react-hook-form, validated on submit by
    the [required]/[pattern]/[validate] rules given to [register], and an
    [onSubmit] handler that composes a date of birth, builds the request
    body, posts it with axios and shows a success or error banner.
    [App.jsx] and [Header.jsx] only lay out markup.

    ** How the program is modelled, file by file

    - [Prelude] (this file): suffixes of lists, boolean helpers, the
      [jsdb] hint database and the tactics shared by the other files.
    - [JsString]: JavaScript strings as lists of UTF-16 code units ([N]);
      the code-unit classes of the ECMAScript grammar ([\d], [\s],
      LineTerminator), strict equality [js_eqb], [String.prototype.padStart]
      ([pad_start]), [String(n)] for integers ([string_of_Z]) and its
      inverse on digit strings ([parse_nonneg]).
    - [Regex]: the ECMAScript regular-expression engine for the constructs
      the four [pattern] literals use (classes, escapes, [.], anchors,
      groups, lookahead, greedy quantifiers, the [i] flag).  [m] is the
      specification's continuation-passing backtracking matcher,
      [rep_loop] its RepeatMatcher with the empty-iteration check, and
      [regex_test] the start-index loop of RegExpBuiltinExec behind
      [String.prototype.match].  [sem] is a declarative reading of
      matching; [m_spec] shows the matcher answers exactly [sem].
    - [Patterns]: the four literals of [RegistrationForm.jsx] (lines 86,
      105, 212, 230) as regex terms and direct descriptions of what each
      accepts: a predicate for the name and the password, a one-pass
      scanner for the contact number (proved equal to the backtracking
      matcher), and an [a@b.c] shape for the email.
    - [Form]: the fields in [register] order, the record of their values,
      and the option lists of the three selects (lines 127-135, 150-170,
      185-195; the year list depends on the year at render time).
    - [Validation]: the [register] options of each field ([form_rules]) and
      react-hook-form's [validateField] ([validate_field]: required, then
      pattern on non-empty values, then [validate]), and the whole-form pass
      of [handleSubmit] ([validate_all]).
    - [DateOfBirth]: the template literal of lines 22-25 and a reading of
      its result as an ISO date.
    - [JsValue]: JS values for request and response bodies, truthiness,
      [||], property reads that throw on [null]/[undefined], and ordinary
      objects as insertion-ordered property lists (spread, set, delete).
    - [Payload]: [postData] (lines 27-34).
    - [Json]: [JSON.stringify] ([stringify], QuoteJSONString with its
      surrogate handling in [quote_units]) as axios applies it to
      [postData] ([request_body], lines 37-40), and [JSON.parse]
      ([json_parse]: objects, strings with every escape, integers,
      literals; a repeated key takes the last value in its first place).
    - [Submission]: the component's state (form values, errors, [alertInfo],
      requests in flight), [onSubmit] split at its [await] into
      [submit_start] and [submit_finish], [handleSubmit] as
      [handle_submit], the inert Cancel button ([on_cancel], lines
      264-274), and the workflow as a step function over events (edit a
      control, submit, a request settles, cancel) with its reachable
      states.
    - [Revalidate]: react-hook-form around that workflow, with the
      default modes of [useForm()]: the [isSubmitted] flag ([rhf_state]),
      the change handler that re-validates the changed field and the fields
      of its [deps] option once the form is submitted ([revalidate],
      [rhf_step]), and the messages shown under the controls
      ([shown_error]).

    ** What is proved

    The claims are about the code of [RegistrationForm.jsx]; the lemmas
    on the library models alone support them.
    - Library models: the matcher is sound and complete for [sem] with the
      fuel it is given ([m_spec], [regex_test_iff], [rep_fuel_enough]);
      [JSON.parse] undoes [JSON.stringify] ([json_roundtrip]) and returns
      well-typed values ([json_parse_typed]).
    - Patterns: exact descriptions of the accepted strings
      ([full_name_accepts], [password_accepts], [contact_number_accepts]
      through the scanner equivalence [contact_number_pattern_spec],
      [email_accepts] on the positions of [@] and [.]); an accepted contact
      number has 10 to 14 code units ([contact_number_length]).
    - Validation: a form passes exactly when all eight field conditions
      hold ([validate_all_nil_iff]); an empty control gets the required
      message of its [register] call ([empty_field_required]); the
      confirmation follows the live password.
    - Date of birth: every choice of the selects composes a date that reads
      back as the chosen numbers ([date_of_birth_roundtrip]) and, for a
      render year of four digits, has exactly ten code units
      ([date_of_birth_length]).
    - Payload: its keys and values ([post_data_keys], [post_data_values]).
    - Workflow: the reachable-state invariant ([reachable_inv]: every
      request in flight carries validated values), the behaviour of each
      branch, a functional refinement of the specified
      [submit(payload) -> outcome] contract ([submit_finish_refines]), the
      interleavings the code allows (double submission, out-of-order
      settlement), and that every request in flight settles
      ([settle_all_drains]).
    - Re-validation: no [register] call passes [deps], so a change after a
      submit re-validates no other field ([edit_keeps_other_errors]),
      hence a stale password-mismatch message ([stale_confirm_error]).

    ** Bounds, fuel and environment

    [json_parse] gives [parse_value] the fuel [S (length s)]: every call
    of [parse_value] or [parse_members] reads at least one code unit, and
    a value has no more values and members than its text has code units
    ([jsize_le_length]).  Strings are sequences of 16-bit code units
    ([code_units_ok]), the bound under which the [\u] escapes decode.
    The quantifier loop [rep_loop] is given fuel [S (min + length s)]:
    every iteration either counts [min] down or, past [min], consumes a
    code unit, so the bound is never reached ([rep_fuel_enough]).  The
    year at render time is a parameter [current_year]; the round trip
    needs [current_year >= 100] so that every offered year is positive.
    The [i] flag is modelled through the ASCII case pairs only: the one
    pattern that uses it has only ASCII members, and Canonicalize never
    maps a non-ASCII unit to an ASCII one.

    ** Not modelled

    Rendering (JSX layout, CSS, [Header.jsx], [App.jsx]) beyond the banner
    condition, the select options and the error messages: it has no
    state or logic.  The HTTP transport and the service: a request
    settles with any result, given as an input.  Of [JSON.parse], arrays
    and numbers with a fraction or an exponent (the value type has no
    arrays and the payload holds only strings), and of react-hook-form
    the focus of the first error and the touched/dirty flags, which the
    component never reads.  The re-validation follows react-hook-form 7,
    where [handleSubmit] sets [isSubmitted] after [onSubmit] returns; the
    repository pins no version.

    Nor is axios's parsing of a response text: it runs [JSON.parse] on
    any string body, and composing it with [submit_finish] faithfully
    needs arrays and fractional numbers in the value type, since a body
    such as [{description: ok, ids: [1]}] parses to an object whose
    [description] the banner shows; the model therefore takes the parsed
    [data] of a response as its input, any value being allowed.  The [i]
    flag is modelled by ASCII case pairs only, which is exact for the one
    pattern that uses it (see above).
    *)

From Stdlib Require Import List Bool Arith Lia ZArith.
Import ListNotations.

Declare Scope js_scope.
Delimit Scope js_scope with js.

(** ** Suffixes: the positions a backtracking matcher hands on *)

Definition is_suffix {A} (s' s : list A) : Prop := exists w, s = w ++ s'.

Lemma is_suffix_refl {A} (s : list A) : is_suffix s s.
Proof. exists []. reflexivity. Qed.

Lemma is_suffix_cons {A} (x : A) (s' s : list A) :
  is_suffix s' s -> is_suffix s' (x :: s).
Proof. intros [w ->]. exists (x :: w). reflexivity. Qed.

Lemma is_suffix_trans {A} (s1 s2 s3 : list A) :
  is_suffix s1 s2 -> is_suffix s2 s3 -> is_suffix s1 s3.
Proof. intros [w1 ->] [w2 ->]. exists (w2 ++ w1). apply app_assoc. Qed.

Lemma is_suffix_length {A} (s' s : list A) :
  is_suffix s' s -> length s' <= length s.
Proof. intros [w ->]. rewrite length_app. lia. Qed.

Lemma is_suffix_same_length {A} (s' s : list A) :
  is_suffix s' s -> length s' = length s -> s' = s.
Proof.
  intros [w ->] H. rewrite length_app in H.
  destruct w; [reflexivity | simpl in H; lia].
Qed.

Create HintDb jsdb discriminated.
#[export] Hint Resolve is_suffix_refl is_suffix_cons is_suffix_trans : jsdb.

Lemma forallb_ext_f {A} (f g : A -> bool) (l : list A) :
  (forall x, f x = g x) -> forallb f l = forallb g l.
Proof. intros H. induction l as [|x l IH]; simpl; [reflexivity | now rewrite H, IH]. Qed.

Lemma existsb_ext_f {A} (f g : A -> bool) (l : list A) :
  (forall x, f x = g x) -> existsb f l = existsb g l.
Proof. intros H. induction l as [|x l IH]; simpl; [reflexivity | now rewrite H, IH]. Qed.

Lemma forallb_Forall {A} (p : A -> bool) (l : list A) :
  forallb p l = true <-> Forall (fun x => p x = true) l.
Proof. rewrite forallb_forall, Forall_forall. reflexivity. Qed.

Lemma existsb_Exists {A} (p : A -> bool) (l : list A) :
  existsb p l = true <-> Exists (fun x => p x = true) l.
Proof. rewrite existsb_exists, Exists_exists. reflexivity. Qed.

(** Prove [In x l] for a concrete list by walking it. *)
Ltac in_list := simpl; repeat (first [left; reflexivity | right]).
