(* ===== verification/JsString.v ===== *)
(** JavaScript strings as lists of UTF-16 code units, with the string
    operations the form uses. *)
From Stdlib Require Import List Bool Arith Lia ZArith NArith.
From Stdlib Require Import String Ascii.
From Stdlib Require DecimalPos.
Export String.StringSyntax.
From S2P Require Import Prelude.
Import List ListNotations.
Open Scope list_scope.

Definition jsstr := list N.

Definition js (s : String.string) : jsstr :=
  map Ascii.N_of_ascii (String.list_ascii_of_string s).
Arguments js s%_string_scope.

(** ** Code-unit classes of the ECMAScript grammar *)

Definition in_range (lo hi c : N) : bool := (lo <=? c)%N && (c <=? hi)%N.

(** [\d]: the decimal digits. *)
Definition is_digit (c : N) : bool := in_range 48 57 c.

Definition is_ascii_lower (c : N) : bool := in_range 97 122 c.

Definition is_ascii_upper (c : N) : bool := in_range 65 90 c.

(** LineTerminator: LF, CR, LS, PS; these are what [.] does not match. *)
Definition is_line_terminator (c : N) : bool :=
  existsb (N.eqb c) [10; 13; 8232; 8233]%N.

(** [\s]: WhiteSpace (TAB, VT, FF, ZWNBSP and the Unicode Space_Separator
    code units) together with LineTerminator. *)
Definition is_js_whitespace (c : N) : bool :=
  existsb (N.eqb c) [9; 11; 12; 32; 160; 5760; 8239; 8287; 12288; 65279]%N
  || in_range 8192 8202 c || is_line_terminator c.

(** Strict equality [===] of two strings: same code units in order. *)
Fixpoint js_eqb (a b : jsstr) : bool :=
  match a, b with
  | [], [] => true
  | x :: a', y :: b' => N.eqb x y && js_eqb a' b'
  | _, _ => false
  end.

(** ** [String.prototype.padStart] *)

(** A string value is a sequence of 16-bit code units. *)
Definition code_units_ok (s : jsstr) : bool := forallb (fun c => (c <? 65536)%N) s.

(** StringPad(S, maxLength, fillString, start): no padding when the string
    is already long enough or the filler is empty; otherwise the filler,
    repeated and truncated to the missing length, goes in front. *)
Definition pad_start (s : jsstr) (max_len : nat) (fill : jsstr) : jsstr :=
  if max_len <=? length s then s
  else match fill with
       | [] => s
       | _ => let fill_len := max_len - length s in
              firstn fill_len (concat (repeat fill fill_len)) ++ s
       end.

Fixpoint uint_cus (u : Decimal.uint) : jsstr :=
  match u with
  | Decimal.Nil => []
  | Decimal.D0 u => 48%N :: uint_cus u
  | Decimal.D1 u => 49%N :: uint_cus u
  | Decimal.D2 u => 50%N :: uint_cus u
  | Decimal.D3 u => 51%N :: uint_cus u
  | Decimal.D4 u => 52%N :: uint_cus u
  | Decimal.D5 u => 53%N :: uint_cus u
  | Decimal.D6 u => 54%N :: uint_cus u
  | Decimal.D7 u => 55%N :: uint_cus u
  | Decimal.D8 u => 56%N :: uint_cus u
  | Decimal.D9 u => 57%N :: uint_cus u
  end.

(** Number::toString for an integral Number: an optional minus sign and the
    shortest decimal digit string. *)
Definition string_of_Z (z : Z) : jsstr :=
  match Z.to_int z with
  | Decimal.Pos u => uint_cus u
  | Decimal.Neg u => 45%N :: uint_cus u
  end.

(** Reading a digit string back: the inverse of [uint_cus]. *)
Definition digit_of_cu (c : N) : option (Decimal.uint -> Decimal.uint) :=
  match c with
  | 48%N => Some Decimal.D0 | 49%N => Some Decimal.D1 | 50%N => Some Decimal.D2
  | 51%N => Some Decimal.D3 | 52%N => Some Decimal.D4 | 53%N => Some Decimal.D5
  | 54%N => Some Decimal.D6 | 55%N => Some Decimal.D7 | 56%N => Some Decimal.D8
  | 57%N => Some Decimal.D9 | _ => None
  end.

Fixpoint parse_uint (s : jsstr) : option Decimal.uint :=
  match s with
  | [] => Some Decimal.Nil
  | c :: s' =>
      match digit_of_cu c, parse_uint s' with
      | Some d, Some u => Some (d u)
      | _, _ => None
      end
  end.

(** A non-empty digit string read as a non-negative integer. *)
Definition parse_nonneg (s : jsstr) : option Z :=
  match s with
  | [] => None
  | _ => option_map Z.of_uint (parse_uint s)
  end.

Example js_ex : js "ab" = [97%N; 98%N].
Proof. reflexivity. Qed.

Example js_app : js "a" ++ [98%N] = js "ab".
Proof. reflexivity. Qed.

Lemma js_eqb_eq a b : js_eqb a b = true <-> a = b.
Proof.
  revert b; induction a as [|x a IH]; intros [|y b]; simpl;
    try (split; congruence).
  rewrite andb_true_iff, N.eqb_eq, IH.
  split; [intros [-> ->]; reflexivity | intros H; injection H as -> ->; auto].
Qed.

Lemma js_eqb_refl a : js_eqb a a = true.
Proof. apply js_eqb_eq. reflexivity. Qed.

Example string_of_Z_ex : string_of_Z 1990 = js "1990" /\ string_of_Z (-7) = js "-7"
                         /\ string_of_Z 0 = js "0".
Proof. repeat split; reflexivity. Qed.

Lemma concat_repeat_single (x : N) k : concat (repeat [x] k) = repeat x k.
Proof. induction k as [|k IH]; simpl; [reflexivity | now rewrite IH]. Qed.

(** Padding with ["0"] puts exactly the missing number of zeros in front. *)
Lemma pad_start_zero s n : pad_start s n (js "0") = repeat 48%N (n - length s) ++ s.
Proof.
  unfold pad_start. destruct (Nat.leb_spec n (length s)) as [H|H].
  - now replace (n - length s) with 0 by lia.
  - change (js "0") with [48%N]. rewrite concat_repeat_single, firstn_all2;
      [reflexivity | rewrite repeat_length; lia].
Qed.

Lemma parse_uint_cus u : parse_uint (uint_cus u) = Some u.
Proof. induction u; simpl; try rewrite IHu; reflexivity. Qed.

Lemma uint_cus_digits u : forallb is_digit (uint_cus u) = true.
Proof. induction u; simpl; rewrite ?IHu; reflexivity. Qed.

Lemma uint_cus_nonempty_pos (p : positive) : uint_cus (Pos.to_uint p) <> [].
Proof.
  intros H. apply (f_equal parse_uint) in H. rewrite parse_uint_cus in H.
  simpl in H. injection H as H. apply (f_equal Pos.of_uint) in H.
  rewrite DecimalPos.Unsigned.of_to in H. discriminate.
Qed.

Lemma parse_nonneg_nonempty s :
  s <> [] -> parse_nonneg s = option_map Z.of_uint (parse_uint s).
Proof. destruct s; [congruence | reflexivity]. Qed.

(** [String(z)] of a non-negative integer reads back as [z]. *)
Lemma parse_string_of_Z z : (0 <= z)%Z -> parse_nonneg (string_of_Z z) = Some z.
Proof.
  intros Hz. unfold string_of_Z. destruct z as [|p|p]; [reflexivity| |lia].
  simpl. rewrite parse_nonneg_nonempty by apply uint_cus_nonempty_pos.
  rewrite parse_uint_cus. simpl. unfold Z.of_uint.
  now rewrite DecimalPos.Unsigned.of_to.
Qed.

(** [String(z)] of a non-negative integer is a non-empty digit string. *)
Lemma string_of_Z_digits z : (0 <= z)%Z ->
  forallb is_digit (string_of_Z z) = true /\ string_of_Z z <> [].
Proof.
  intros Hz. unfold string_of_Z. destruct z as [|p|p]; [split; [reflexivity | discriminate]| |lia].
  simpl. split; [apply uint_cus_digits | apply uint_cus_nonempty_pos].
Qed.

Lemma code_units_ok_app a b : code_units_ok (a ++ b) = code_units_ok a && code_units_ok b.
Proof. apply forallb_app. Qed.

