(* ===== verification/Regex.v ===== *)
(** The ECMAScript regular-expression matcher, for the constructs the four
    [pattern] literals of the form use: literal characters, character
    classes with ranges and class escapes, [.], [^] and [$] without the
    [m] flag, groups, positive lookahead, greedy quantifiers, and the [i]
    flag.  [m] is the continuation-passing backtracking matcher of the
    ECMAScript specification (22.2.2, "Pattern Semantics"), [sem] is its
    declarative reading, and [m_spec] shows they agree. *)
From Stdlib Require Import List Bool Arith Lia NArith.
From S2P Require Import Prelude JsString.
Import ListNotations.

(** ** Syntax *)

(** ClassEscape / CharacterClassEscape: [\d \D \s \S \w \W]. *)
Inductive class_escape := EDigit | ENotDigit | ESpace | ENotSpace | EWord | ENotWord.

Inductive class_item :=
  | CChar (c : N)                  (* a single ClassAtom *)
  | CRange (lo hi : N)             (* ClassAtom - ClassAtom *)
  | CEsc (e : class_escape).

Inductive regex :=
  | REmpty
  | RChar (c : N)                               (* PatternCharacter *)
  | RClass (negated : bool) (items : list class_item)   (* [...] and [^...] *)
  | REsc (e : class_escape)                     (* \d, \S, ... outside a class *)
  | RDot
  | RBol                                         (* ^ *)
  | REol                                         (* $ *)
  | RSeq (r1 r2 : regex)
  | RAlt (r1 r2 : regex)
  | RGroup (r : regex)                          (* ( ... ) *)
  | RLook (r : regex)                           (* (?= ... ) *)
  | RRep (r : regex) (min : nat) (max : option nat).   (* greedy quantifier *)

(** ** Character sets *)

Definition is_word_char (c : N) : bool :=
  is_ascii_lower c || is_ascii_upper c || is_digit c || N.eqb c 95.

Definition escape_test (e : class_escape) (c : N) : bool :=
  match e with
  | EDigit => is_digit c
  | ENotDigit => negb (is_digit c)
  | ESpace => is_js_whitespace c
  | ENotSpace => negb (is_js_whitespace c)
  | EWord => is_word_char c
  | ENotWord => negb (is_word_char c)
  end.

Definition item_test (it : class_item) (c : N) : bool :=
  match it with
  | CChar a => N.eqb a c
  | CRange lo hi => in_range lo hi c
  | CEsc e => escape_test e c
  end.

Definition set_test (items : list class_item) (c : N) : bool :=
  existsb (fun it => item_test it c) items.

(** Canonicalize(ch) without the [u] flag maps a code unit to its upper
    case unless that would map a non-ASCII unit to an ASCII one.  Every
    character set of this program is made of ASCII units and class
    escapes, so only the ASCII letters' case pairs are needed: the
    [case_variants] of [c] are the units whose canonical form is that of
    [c] among the ASCII ones. *)
Definition case_variants (c : N) : list N :=
  if is_ascii_lower c then [c; (c - 32)%N]
  else if is_ascii_upper c then [c; (c + 32)%N]
  else [c].

(** CharacterSetMatcher: with [ic] (the [i] flag) a unit matches when some
    member of the set has the same canonical form. *)
Definition cs_member (ic : bool) (p : N -> bool) (c : N) : bool :=
  if ic then existsb p (case_variants c) else p c.

(** ** The backtracking matcher *)

Section Matcher.
(** [ic]: the [i] flag; [n]: the length of the whole input, which [^]
    compares the current position with. *)
Variable ic : bool.
Variable n : nat.

(** One step of a character matcher: consume a unit that satisfies [p]. *)
Definition char_step (p : N -> bool) (s : jsstr) (k : jsstr -> bool) : bool :=
  match s with
  | x :: s' => p x && k s'
  | [] => false
  end.

(** RepeatMatcher(m, min, max, greedy=true, x, c).  [fuel] bounds the
    iterations; [S (min + length s)] is enough (see [rep_fuel_enough]),
    because an iteration past [min] must consume a unit. *)
Fixpoint rep_loop (mr : jsstr -> (jsstr -> bool) -> bool) (k : jsstr -> bool)
    (fuel mn : nat) (mx : option nat) (s : jsstr) : bool :=
  match mx with
  | Some 0 => k s
  | _ =>
    match fuel with
    | 0 => false
    | S f =>
      let d := fun s' =>
        if (mn =? 0) && (length s' =? length s) then false
        else rep_loop mr k f (pred mn) (option_map pred mx) s' in
      if mn =? 0 then mr s d || k s else mr s d
    end
  end.

Fixpoint m (r : regex) (s : jsstr) (k : jsstr -> bool) {struct r} : bool :=
  match r with
  | REmpty => k s
  | RChar c => char_step (cs_member ic (N.eqb c)) s k
  | RClass neg items => char_step (fun x => xorb neg (cs_member ic (set_test items) x)) s k
  | REsc e => char_step (cs_member ic (escape_test e)) s k
  | RDot => char_step (fun x => negb (is_line_terminator x)) s k
  | RBol => (length s =? n) && k s
  | REol => match s with [] => k s | _ => false end
  | RSeq r1 r2 => m r1 s (fun s1 => m r2 s1 k)
  | RAlt r1 r2 => m r1 s k || m r2 s k
  | RGroup r1 => m r1 s k
  | RLook r1 => m r1 s (fun _ => true) && k s
  | RRep r1 mn mx => rep_loop (m r1) k (S (mn + length s)) mn mx s
  end.
End Matcher.

(** RegExpBuiltinExec for a regex without the [g] and [y] flags: try each
    start index from 0 to the length of the input; [String.prototype.match]
    returns non-null exactly when one of them matches. *)
Definition regex_test (ic : bool) (r : regex) (input : jsstr) : bool :=
  existsb (fun i => m ic (length input) r (skipn i input) (fun _ => true))
          (seq 0 (S (length input))).

(** ** Declarative semantics *)

(** A quantifier [{min,max}] with [min > max] is an early SyntaxError. *)
Definition quant_ok (mn : nat) (mx : option nat) : Prop :=
  match mx with Some M => mn <= M | None => True end.

Section Semantics.
Variable ic : bool.
Variable n : nat.

(** The unit test of a character matcher, when [r] is one. *)
Definition atom_pred (r : regex) : option (N -> bool) :=
  match r with
  | RChar c => Some (cs_member ic (N.eqb c))
  | RClass neg items => Some (fun x => xorb neg (cs_member ic (set_test items) x))
  | REsc e => Some (cs_member ic (escape_test e))
  | RDot => Some (fun x => negb (is_line_terminator x))
  | _ => None
  end.

(** [sem r s s']: matching [r] from the remaining input [s] can leave
    [s'].  The two quantifier rules are the two ways RepeatMatcher
    proceeds: stop (allowed once [min] is reached, forced at [max = 0])
    or run one more iteration, which must consume input past [min]. *)
Inductive sem : regex -> jsstr -> jsstr -> Prop :=
  | sem_empty s : sem REmpty s s
  | sem_atom r p x s : atom_pred r = Some p -> p x = true -> sem r (x :: s) s
  | sem_bol s : length s = n -> sem RBol s s
  | sem_eol : sem REol [] []
  | sem_seq r1 r2 s s1 s2 : sem r1 s s1 -> sem r2 s1 s2 -> sem (RSeq r1 r2) s s2
  | sem_alt_l r1 r2 s s' : sem r1 s s' -> sem (RAlt r1 r2) s s'
  | sem_alt_r r1 r2 s s' : sem r2 s s' -> sem (RAlt r1 r2) s s'
  | sem_group r s s' : sem r s s' -> sem (RGroup r) s s'
  | sem_look r s s' : sem r s s' -> sem (RLook r) s s
  | sem_rep_stop r mn mx s : mn = 0 \/ mx = Some 0 -> sem (RRep r mn mx) s s
  | sem_rep_iter r mn mx s s1 s2 :
      mx <> Some 0 -> sem r s s1 -> (mn = 0 -> length s1 <> length s) ->
      sem (RRep r (pred mn) (option_map pred mx)) s1 s2 ->
      sem (RRep r mn mx) s s2.

End Semantics.

(** The continuation RepeatMatcher hands to the iterated matcher: the
    closure [d] of step 2 of the specification. *)
Definition rep_next (mr : jsstr -> (jsstr -> bool) -> bool) (k : jsstr -> bool)
    (f mn : nat) (mx : option nat) (s : jsstr) : jsstr -> bool :=
  fun s' => if (mn =? 0) && (length s' =? length s) then false
            else rep_loop mr k f (pred mn) (option_map pred mx) s'.

(** A sub-matcher answers exactly the matches of [r1]. *)
Definition matches_as (ic : bool) (n : nat) (mr : jsstr -> (jsstr -> bool) -> bool) (r1 : regex) : Prop :=
  forall s k, mr s k = true <-> exists s', sem ic n r1 s s' /\ k s' = true.

(** [take_run p k s]: the rest of [s] after exactly [k] units passing [p]. *)
Definition take_run (p : N -> bool) (k : nat) (s : jsstr) : option jsstr :=
  if (k <=? length s) && forallb p (firstn k s) then Some (skipn k s) else None.

(** [drop_if p s]: [s] without its first unit when that unit passes [p]. *)
Definition drop_if (p : N -> bool) (s : jsstr) : jsstr :=
  match s with x :: t => if p x then t else s | [] => [] end.

(** Whether some unit passing [p] occurs before the first line terminator
    (that terminator included): what [(?=.*X)] checks. *)
Fixpoint exists_before_lt (p : N -> bool) (s : jsstr) : bool :=
  match s with
  | [] => false
  | x :: t => p x || (negb (is_line_terminator x) && exists_before_lt p t)
  end.

(** Invert a [sem] hypothesis, dropping the character-matcher case when the
    pattern is not a character matcher. *)
Ltac sem_inv H :=
  inversion H; subst;
  try match goal with E : atom_pred _ _ = Some _ |- _ => discriminate E end.

(** ** Basic facts about the semantics *)

Section SemanticsFacts.
Variable ic : bool.
Variable n : nat.

Lemma sem_suffix r s s' : sem ic n r s s' -> is_suffix s' s.
Proof. induction 1; eauto with jsdb. Qed.

Lemma m_atom r p s k : atom_pred ic r = Some p -> m ic n r s k = char_step p s k.
Proof. destruct r; simpl; intros H; try discriminate; injection H as <-; reflexivity. Qed.

Lemma char_step_spec p s k :
  char_step p s k = true <-> exists x s', s = x :: s' /\ p x = true /\ k s' = true.
Proof.
  destruct s as [|x s]; simpl; [split; [discriminate | intros (? & ? & ? & _); discriminate]|].
  rewrite andb_true_iff. split; [intros [? ?]; eauto | intros (? & ? & [= <- <-] & ? & ?); auto].
Qed.

Lemma sem_atom_iff r p s s' :
  atom_pred ic r = Some p -> (sem ic n r s s' <-> exists x, s = x :: s' /\ p x = true).
Proof.
  intros Hp. split.
  - intros H. destruct H; simpl in Hp; try discriminate.
    exists x. split; [reflexivity | congruence].
  - intros (x & -> & Hx). eauto using sem.
Qed.
Lemma sem_rep_iff r mn mx s s' :
  sem ic n (RRep r mn mx) s s' <->
  ((mn = 0 \/ mx = Some 0) /\ s' = s) \/
  (mx <> Some 0 /\ exists s1, sem ic n r s s1 /\ (mn = 0 -> length s1 <> length s) /\
                             sem ic n (RRep r (pred mn) (option_map pred mx)) s1 s').
Proof.
  split.
  - intros H; inversion H; subst;
      [match goal with E : atom_pred _ _ = _ |- _ => discriminate E end | left | right]; eauto 6.
  - intros [[? ->] | [? (s1 & ? & ? & ?)]]; [apply sem_rep_stop | eapply sem_rep_iter]; eauto.
Qed.
End SemanticsFacts.

(** ** The matcher implements the semantics *)

Lemma rep_loop_unfold mr k f mn mx s :
  mx <> Some 0 ->
  rep_loop mr k (S f) mn mx s =
  (if mn =? 0 then mr s (rep_next mr k f mn mx s) || k s
   else mr s (rep_next mr k f mn mx s)).
Proof. destruct mx as [[|M]|]; [congruence | reflexivity | reflexivity]. Qed.

Section Correctness.
Variable ic : bool.
Variable n : nat.

Section Rep.
Variable r1 : regex.
Variable mr : jsstr -> (jsstr -> bool) -> bool.
Hypothesis Hmr : matches_as ic n mr r1.
Variable k : jsstr -> bool.

Lemma rep_loop_spec fuel : forall mn mx s, mn + length s < fuel ->
  rep_loop mr k fuel mn mx s = true <->
  exists s', sem ic n (RRep r1 mn mx) s s' /\ k s' = true.
Proof.
  induction fuel as [|f IH]; intros mn mx s Hf; [lia|].
  assert (Hz : mx = Some 0 \/ mx <> Some 0)
    by (destruct mx as [[|]|]; [left | right..]; congruence).
  destruct Hz as [->|Hmx].
  { simpl. setoid_rewrite sem_rep_iff.
    split; [intros Hk; exists s; split; [left; split; [right |]; reflexivity | exact Hk] |].
    intros (s' & [[_ ->] | [? _]] & Hk); [assumption | congruence]. }
  assert (Hd : forall s1, sem ic n r1 s s1 ->
    (rep_next mr k f mn mx s s1 = true <->
     (mn = 0 -> length s1 <> length s) /\
     exists s2, sem ic n (RRep r1 (pred mn) (option_map pred mx)) s1 s2 /\ k s2 = true)).
  { intros s1 H1. apply sem_suffix, is_suffix_length in H1. unfold rep_next.
    destruct (Nat.eqb_spec mn 0) as [->|Hmn], (Nat.eqb_spec (length s1) (length s));
      simpl; try (rewrite IH by lia); intuition congruence. }
  rewrite rep_loop_unfold by exact Hmx. setoid_rewrite sem_rep_iff.
  split.
  - intros H. destruct (Nat.eqb_spec mn 0) as [->|Hmn];
      [apply orb_true_iff in H as [H|H] |];
      try (apply Hmr in H as (s1 & H1 & Hn); apply (Hd s1 H1) in Hn as [? (s2 & ? & ?)];
           exists s2; split; [right; eauto | assumption]).
    exists s. auto.
  - intros (s' & [[[->|] ->] | [_ (s1 & H1 & Hc & Hr)]] & Hk); try congruence.
    + simpl. now rewrite Hk, orb_true_r.
    + assert (Hm : mr s (rep_next mr k f mn mx s) = true)
        by (apply Hmr; exists s1; split; [exact H1 | apply Hd; eauto]).
      destruct (mn =? 0); now rewrite Hm.
Qed.
End Rep.

(** The matcher answers exactly the matches of the pattern, for every
    continuation: the fuel of the quantifier loop is always enough. *)
Theorem m_spec r : matches_as ic n (m ic n r) r.
Proof.
  induction r; unfold matches_as in *; intros s k;
    try (erewrite m_atom by reflexivity; rewrite char_step_spec;
         setoid_rewrite sem_atom_iff; [|reflexivity];
         split; [intros (x & s' & -> & ? & ?); eauto | intros (s' & (x & -> & ?) & ?); eauto]).
  - split; [eauto using sem | intros (s' & H & Hk); sem_inv H; assumption].
  - simpl. rewrite andb_true_iff, Nat.eqb_eq.
    split; [intros [? ?]; eauto using sem | intros (s' & H & Hk); sem_inv H; auto].
  - simpl. destruct s as [|x s];
      [split; [eauto using sem | intros (s' & H & Hk); sem_inv H; assumption] |].
    split; [discriminate | intros (s' & H & _); sem_inv H].
  - simpl. rewrite IHr1. setoid_rewrite IHr2.
    split; [intros (s1 & H1 & s2 & H2 & Hk); eauto using sem |].
    intros (s2 & H & Hk). sem_inv H. eauto.
  - simpl. rewrite orb_true_iff, IHr1, IHr2.
    split; [intros [(s' & ? & ?) | (s' & ? & ?)]; eauto using sem |].
    intros (s' & H & Hk). sem_inv H; eauto.
  - simpl. rewrite IHr. split; [intros (s' & ? & ?); eauto using sem |].
    intros (s' & H & Hk). sem_inv H. eauto.
  - simpl. rewrite andb_true_iff, IHr.
    split; [intros [(s' & ? & _) ?]; eauto using sem |].
    intros (s' & H & Hk). sem_inv H. eauto.
  - apply (rep_loop_spec r (m ic n r) IHr k (S (min + length s))). lia.
Qed.
End Correctness.

(** ** Consequences used by the patterns *)

Lemma m_iff ic n r s k : m ic n r s k = true <-> exists s', sem ic n r s s' /\ k s' = true.
Proof. apply m_spec. Qed.

(** Any fuel above [min + length s] gives the answer the matcher computes:
    RepeatMatcher terminates within the bound. *)
Theorem rep_fuel_enough ic n r k fuel mn mx s :
  mn + length s < fuel ->
  rep_loop (m ic n r) k fuel mn mx s = m ic n (RRep r mn mx) s k.
Proof.
  intros Hf. apply Bool.eq_iff_eq_true.
  rewrite (rep_loop_spec ic n r _ (m_spec ic n r) k fuel) by exact Hf.
  symmetry. apply m_spec.
Qed.

(** A pattern starting with [^] (no [m] flag) can only match at index 0. *)
Lemma regex_test_bol ic r input :
  regex_test ic (RSeq RBol r) input = true <->
  exists s', sem ic (length input) r input s'.
Proof.
  unfold regex_test. rewrite existsb_exists. split.
  - intros (i & _ & Hm). apply m_spec in Hm as (s' & H & _).
    sem_inv H. match goal with H : sem _ _ RBol _ _ |- _ => sem_inv H end.
    assert (Hsuf : is_suffix (skipn i input) input)
      by (exists (firstn i input); symmetry; apply firstn_skipn).
    assert (E : skipn i input = input) by (apply is_suffix_same_length; assumption).
    rewrite E in *. eauto.
  - intros (s' & H). exists 0. split; [apply in_seq; lia|].
    apply m_spec. exists s'. split; [|reflexivity]. simpl.
    eapply sem_seq; [apply sem_bol; reflexivity | exact H].
Qed.

Lemma sem_eol_iff ic n s s' : sem ic n REol s s' <-> s = [] /\ s' = [].
Proof. split; [intros H; sem_inv H; auto | intros [-> ->]; constructor]. Qed.

Lemma sem_seq_iff ic n r1 r2 s s' :
  sem ic n (RSeq r1 r2) s s' <-> exists s1, sem ic n r1 s s1 /\ sem ic n r2 s1 s'.
Proof. split; [intros H; sem_inv H; eauto | intros (s1 & ? & ?); econstructor; eauto]. Qed.

Lemma quant_ok_pred mn mx : quant_ok mn mx -> quant_ok (pred mn) (option_map pred mx).
Proof. destruct mx; simpl; lia. Qed.

(** A greedy quantifier over a character matcher consumes a run of units
    that pass its test, of a length within the bounds. *)
Lemma sem_rep_atom ic n r p mn mx s s' :
  atom_pred ic r = Some p -> quant_ok mn mx ->
  sem ic n (RRep r mn mx) s s' <->
  exists w, s = w ++ s' /\ forallb p w = true /\ mn <= length w /\ quant_ok (length w) mx.
Proof.
  intros Hp Hq. split.
  - intros H. remember (RRep r mn mx) as R eqn:ER. revert mn mx Hq ER.
    induction H; intros mn' mx' Hq ER; try discriminate;
      [subst; discriminate | (injection ER as <- <- <-) | (injection ER as <- <- <-)].
    + exists []. assert (mn = 0) as ->.
      { destruct H as [H|H]; [exact H | subst mx; simpl in Hq; lia]. }
      destruct mx; simpl; repeat split; lia.
    + apply (sem_atom_iff ic n _ _ _ _ Hp) in H0 as (x & -> & Hx).
      destruct (IHsem2 _ _ (quant_ok_pred _ _ Hq) eq_refl) as (w & -> & Hw & Hmn & Hmx).
      exists (x :: w). simpl. rewrite Hx, Hw.
      destruct mx as [[|M]|]; simpl in *; repeat split; try congruence; lia.
  - intros (w & -> & Hw & Hmn & Hmx). revert mn mx Hq Hmn Hmx.
    induction w as [|x w IH]; intros mn mx Hq Hmn Hmx.
    + apply sem_rep_stop. left. simpl in Hmn. lia.
    + simpl in Hw. apply andb_true_iff in Hw as [Hx Hw].
      apply sem_rep_iter with (s1 := w ++ s').
      * intros ->. simpl in Hmx. lia.
      * apply (sem_atom_iff ic n _ _ _ _ Hp). exists x. split; [reflexivity | exact Hx].
      * simpl. rewrite length_app. lia.
      * apply IH; [exact Hw | apply quant_ok_pred, Hq | simpl in *; lia |].
        destruct mx; simpl in *; lia.
Qed.

(** The boolean form of [regex_test_bol]: an anchored pattern is tested by
    running its body once on the whole input. *)
Lemma regex_test_bol_m ic r input :
  regex_test ic (RSeq RBol r) input = m ic (length input) r input (fun _ => true).
Proof.
  apply Bool.eq_iff_eq_true. rewrite regex_test_bol, m_iff.
  split; [intros (s' & H); eauto | intros (s' & H & _); eauto].
Qed.

Lemma m_seq ic n r1 r2 s k : m ic n (RSeq r1 r2) s k = m ic n r1 s (fun s1 => m ic n r2 s1 k).
Proof. reflexivity. Qed.

Lemma m_group ic n r s k : m ic n (RGroup r) s k = m ic n r s k.
Proof. reflexivity. Qed.

(** [r{k}] over a character matcher is [take_run]. *)
Lemma m_run ic n r p k s c :
  atom_pred ic r = Some p ->
  m ic n (RRep r k (Some k)) s c =
  match take_run p k s with Some t => c t | None => false end.
Proof.
  intros Hp. apply Bool.eq_iff_eq_true. rewrite m_iff.
  setoid_rewrite (sem_rep_atom ic n r p k (Some k)); [|exact Hp | simpl; lia].
  unfold take_run. split.
  - intros (t & (w & -> & Hw & Hmn & Hmx) & Hc). simpl in Hmx.
    assert (length w = k) as <- by lia.
    rewrite firstn_app, Nat.sub_diag, firstn_all, app_nil_r, Hw, skipn_app, Nat.sub_diag,
      skipn_all, length_app. simpl. now replace (length w <=? length w + length t) with true
      by (symmetry; apply Nat.leb_le; lia).
  - destruct ((k <=? length s) && forallb p (firstn k s)) eqn:E; [|discriminate].
    apply andb_true_iff in E as [Hk Hw]. apply Nat.leb_le in Hk. intros Hc.
    exists (skipn k s). split; [|exact Hc].
    exists (firstn k s). rewrite firstn_skipn, length_firstn. simpl.
    repeat split; [exact Hw | lia | lia].
Qed.

(** [r?] over a character matcher, when the rest of the pattern can never
    start with a unit [r] accepts: the optional unit is taken exactly when
    it is there. *)
Lemma m_opt_det ic n r p s c :
  atom_pred ic r = Some p ->
  (forall x t, p x = true -> c (x :: t) = false) ->
  m ic n (RRep r 0 (Some 1)) s c = c (drop_if p s).
Proof.
  intros Hp Hc. apply Bool.eq_iff_eq_true. rewrite m_iff.
  setoid_rewrite (sem_rep_atom ic n r p 0 (Some 1)); [|exact Hp | simpl; lia].
  split.
  - intros (t & (w & -> & Hw & _ & Hmx) & Ht).
    destruct w as [|x [|y w]]; simpl in Hmx, Hw; try lia.
    + destruct t as [|x t]; [exact Ht|]. simpl.
      destruct (p x) eqn:Ex; [rewrite Hc in Ht by exact Ex; discriminate | exact Ht].
    + rewrite andb_true_r in Hw. simpl. now rewrite Hw.
  - destruct s as [|x t]; simpl; intros H.
    + exists []. split; [exists []; simpl; repeat split; lia | exact H].
    + destruct (p x) eqn:Ex.
      * exists t. split; [exists [x]; simpl; rewrite Ex; repeat split; lia | exact H].
      * exists (x :: t). split; [exists []; simpl; repeat split; lia | exact H].
Qed.

Lemma m_look ic n r s k : m ic n (RLook r) s k = m ic n r s (fun _ => true) && k s.
Proof. reflexivity. Qed.

(** [r{mn,}$] over a character matcher: the whole rest passes the test
    and is long enough. *)
Lemma m_rep_eol ic n r p mn s k :
  atom_pred ic r = Some p ->
  m ic n (RSeq (RRep r mn None) REol) s k = (mn <=? length s) && forallb p s && k [].
Proof.
  intros Hp. apply Bool.eq_iff_eq_true. rewrite m_iff.
  setoid_rewrite sem_seq_iff. setoid_rewrite sem_eol_iff.
  setoid_rewrite (sem_rep_atom ic n r p mn None); [|exact Hp | exact I].
  rewrite !andb_true_iff, Nat.leb_le. split.
  - intros (t & (t1 & (w & -> & Hw & Hmn & _) & -> & ->) & Hk).
    rewrite app_nil_r. auto.
  - intros [[Hmn Hw] Hk]. exists []. split; [|exact Hk].
    exists []. split; [|auto]. exists s. rewrite app_nil_r. repeat split; auto.
Qed.

Lemma exists_before_lt_no_lt p s :
  forallb (fun x => negb (is_line_terminator x)) s = true ->
  exists_before_lt p s = existsb p s.
Proof.
  induction s as [|x t IH]; simpl; [reflexivity|].
  intros H. apply andb_true_iff in H as [-> H]. now rewrite IH.
Qed.

(** [.*X] followed by anything: some unit passing [X]'s test occurs before
    the first line terminator. *)
Lemma m_dotstar ic n r p s :
  atom_pred ic r = Some p ->
  m ic n (RSeq (RRep RDot 0 None) r) s (fun _ => true) = exists_before_lt p s.
Proof.
  intros Hp. apply Bool.eq_iff_eq_true. rewrite m_iff.
  setoid_rewrite sem_seq_iff.
  setoid_rewrite (sem_rep_atom ic n RDot _ 0 None); [|reflexivity | exact I].
  setoid_rewrite (sem_atom_iff ic n r p); [|exact Hp].
  split.
  - intros (t & (t1 & (w & -> & Hw & _ & _) & (x & -> & Hx)) & _).
    induction w as [|y w IH]; simpl in *; [now rewrite Hx|].
    apply andb_true_iff in Hw as [Hy Hw]. rewrite Hy, IH by exact Hw. apply orb_true_r.
  - induction s as [|x t IH]; simpl; [discriminate|].
    destruct (p x) eqn:Hx; simpl.
    + intros _. exists t. split; [|reflexivity]. exists (x :: t).
      split; [exists []; repeat split; simpl; lia | eauto].
    + rewrite andb_true_iff. intros [Hl Ht].
      destruct (IH Ht) as (u & (t1 & (w & -> & Hw & _ & _) & (y & -> & Hy)) & _).
      exists u. split; [|reflexivity]. exists (y :: u). split; [|eauto].
      exists (x :: w). simpl. rewrite Hl, Hw. repeat split; simpl; lia.
Qed.

Lemma take_run_ext p q k s :
  (forall x, p x = q x) -> take_run p k s = take_run q k s.
Proof. intros H. unfold take_run. now rewrite (forallb_ext_f p q _ H). Qed.

Lemma drop_if_ext p q s : (forall x, p x = q x) -> drop_if p s = drop_if q s.
Proof. intros H. destruct s; simpl; [reflexivity | now rewrite H]. Qed.

Lemma take_run_head_false p k x t : p x = false -> take_run p (S k) (x :: t) = None.
Proof. intros H. unfold take_run. simpl. rewrite H. now rewrite andb_false_r. Qed.

(** [String.prototype.match] with a non-global pattern succeeds exactly
    when the pattern matches from some start index of the input (the
    matcher's fuel never cuts a match short). *)
Theorem regex_test_iff ic r input :
  regex_test ic r input = true <->
  exists i s', i <= length input /\ sem ic (length input) r (skipn i input) s'.
Proof.
  unfold regex_test. rewrite existsb_exists. setoid_rewrite in_seq. setoid_rewrite m_iff.
  split.
  - intros (i & Hi & s' & H & _). exists i, s'. split; [lia | exact H].
  - intros (i & s' & Hi & H). exists i. split; [lia | eauto].
Qed.

