(* ===== verification/Patterns.v ===== *)
(** The four [pattern] literals of [RegistrationForm.jsx] as regex terms,
    and what each one accepts, stated directly on the input string. *)
From Stdlib Require Import List Bool Arith Lia NArith Btauto.
From S2P Require Import Prelude JsString Regex.
Import ListNotations.

(** ** The literals *)

(** [/^[A-Za-z ]+$/i] (full name). *)
Definition full_name_set : list class_item := [CRange 65%N 90%N; CRange 97%N 122%N; CChar 32%N].

Definition full_name_pattern : regex :=
  RSeq RBol (RSeq (RRep (RClass false full_name_set) 1 None) REol).

Definition full_name_ignore_case : bool := true.

(** [/^\(?([0-9]{3})\)?[-. ]?([0-9]{3})[-. ]?([0-9]{4})$/] (contact number). *)
Definition digit_class : regex := RClass false [CRange 48%N 57%N].

Definition sep_class : regex := RClass false [CChar 45%N; CChar 46%N; CChar 32%N].

Definition contact_number_pattern : regex :=
  RSeq RBol
   (RSeq (RRep (RChar 40%N) 0 (Some 1))
   (RSeq (RGroup (RRep digit_class 3 (Some 3)))
   (RSeq (RRep (RChar 41%N) 0 (Some 1))
   (RSeq (RRep sep_class 0 (Some 1))
   (RSeq (RGroup (RRep digit_class 3 (Some 3)))
   (RSeq (RRep sep_class 0 (Some 1))
   (RSeq (RGroup (RRep digit_class 4 (Some 4)))
    REol))))))).

(** [/^\S+@\S+\.\S+$/] (email). *)
Definition email_pattern : regex :=
  RSeq RBol
   (RSeq (RRep (REsc ENotSpace) 1 None)
   (RSeq (RChar 64%N)
   (RSeq (RRep (REsc ENotSpace) 1 None)
   (RSeq (RChar 46%N)
   (RSeq (RRep (REsc ENotSpace) 1 None)
    REol))))).

(** [/^(?=.*[a-z])(?=.*[A-Z])(?=.*\d)[a-zA-Z\d]{8,}$/] (password). *)
Definition password_pattern : regex :=
  RSeq RBol
   (RSeq (RLook (RSeq (RRep RDot 0 None) (RClass false [CRange 97%N 122%N])))
   (RSeq (RLook (RSeq (RRep RDot 0 None) (RClass false [CRange 65%N 90%N])))
   (RSeq (RLook (RSeq (RRep RDot 0 None) (REsc EDigit)))
   (RSeq (RRep (RClass false [CRange 97%N 122%N; CRange 65%N 90%N; CEsc EDigit]) 8 None)
    REol)))).

(** ** What each pattern accepts *)

Definition is_name_char (c : N) : bool :=
  is_ascii_upper c || is_ascii_lower c || N.eqb c 32.

Definition is_alnum (c : N) : bool :=
  is_ascii_lower c || is_ascii_upper c || is_digit c.

Definition is_sep (c : N) : bool := N.eqb c 45 || N.eqb c 46 || N.eqb c 32.

Definition not_space (c : N) : bool := negb (is_js_whitespace c).

(** A non-empty string of ASCII letters and spaces. *)
Definition full_name_ok (s : jsstr) : bool :=
  match s with [] => false | _ => forallb is_name_char s end.

(** At least eight ASCII letters and digits, with a lower-case letter, an
    upper-case letter and a digit among them. *)
Definition password_ok (s : jsstr) : bool :=
  (8 <=? length s) && forallb is_alnum s &&
  existsb is_ascii_lower s && existsb is_ascii_upper s && existsb is_digit s.

(** The deterministic reading of the contact-number pattern: an optional
    [(], three digits, an optional [)], an optional separator, three
    digits, an optional separator, four digits, end of input. *)
Definition contact_number_ok (s : jsstr) : bool :=
  match take_run is_digit 3 (drop_if (N.eqb 40) s) with
  | None => false
  | Some s2 =>
    match take_run is_digit 3 (drop_if is_sep (drop_if (N.eqb 41) s2)) with
    | None => false
    | Some s4 =>
      match take_run is_digit 4 (drop_if is_sep s4) with
      | Some [] => true
      | _ => false
      end
    end
  end.

(** *** Email *)

(** A local part, [@], a domain label, [.], a last part: three non-empty
    runs of non-whitespace units.  The runs may themselves hold [@] and
    [.]; the pattern only needs some [@] followed later by some [.]. *)
Definition email_shape (s : jsstr) : Prop :=
  exists a b c, s = a ++ 64%N :: b ++ 46%N :: c /\ a <> [] /\ b <> [] /\ c <> [] /\
    forallb not_space a = true /\ forallb not_space b = true /\ forallb not_space c = true.

(** A contact number on its characters: an optional [(], three digits,
    an optional [)], an optional separator, three digits, an optional
    separator, four digits. *)
Definition digits (k : nat) (d : jsstr) : Prop := length d = k /\ forallb is_digit d = true.

Definition opt_unit (p : N -> bool) (o : jsstr) : Prop := o = [] \/ exists x, o = [x] /\ p x = true.

Definition contact_number_shape (s : jsstr) : Prop :=
  exists o d1 c sp1 d2 sp2 d3,
    s = o ++ d1 ++ c ++ sp1 ++ d2 ++ sp2 ++ d3 /\
    opt_unit (N.eqb 40) o /\ opt_unit (N.eqb 41) c /\ opt_unit is_sep sp1 /\ opt_unit is_sep sp2 /\
    digits 3 d1 /\ digits 3 d2 /\ digits 4 d3.

Example patterns_run :
  regex_test true full_name_pattern (js "Jane Doe") = true /\
  regex_test true full_name_pattern (js "Jane D0e") = false /\
  regex_test false contact_number_pattern (js "(416) 555-0199") = true /\
  regex_test false contact_number_pattern (js "(416 555.0199") = true /\
  regex_test false contact_number_pattern (js "416-555-019") = false /\
  regex_test false email_pattern (js "jane@example.com") = true /\
  regex_test false email_pattern (js "not-an-email") = false /\
  regex_test false password_pattern (js "Abcdef12") = true /\
  regex_test false password_pattern (js "Abcdef1!") = false /\
  regex_test false password_pattern (js "abcdefg1") = false.
Proof. vm_compute. repeat split. Qed.

Lemma in_range_iff lo hi c : in_range lo hi c = true <-> (lo <= c <= hi)%N.
Proof. unfold in_range. rewrite andb_true_iff, !N.leb_le. reflexivity. Qed.

(** The [i] flag changes nothing for [[A-Za-z ]]: the set is closed under
    the ASCII case pairs. *)
Lemma full_name_class_pred x :
  xorb false (cs_member true (set_test full_name_set) x) = is_name_char x.
Proof.
  unfold cs_member, case_variants, set_test, full_name_set, item_test, is_name_char,
    is_ascii_lower, is_ascii_upper.
  destruct (in_range 97 122 x) eqn:El; [|destruct (in_range 65 90 x) eqn:Eu];
    cbn [existsb xorb]; rewrite ?El, ?Eu; try rewrite (N.eqb_sym 32 x); btauto.
Qed.

Lemma alnum_class_pred x :
  xorb false (cs_member false (set_test [CRange 97 122; CRange 65 90; CEsc EDigit]) x)
  = is_alnum x.
Proof.
  unfold cs_member, set_test, is_alnum, is_ascii_lower, is_ascii_upper.
  cbn [existsb xorb item_test escape_test]. btauto.
Qed.

Lemma alnum_not_lt x : is_alnum x = true -> negb (is_line_terminator x) = true.
Proof.
  unfold is_alnum, is_digit, is_ascii_lower, is_ascii_upper, is_line_terminator.
  rewrite !orb_true_iff, !in_range_iff. cbn [existsb]. intros H.
  destruct (N.eqb_spec x 10), (N.eqb_spec x 13), (N.eqb_spec x 8232), (N.eqb_spec x 8233);
    simpl; lia.
Qed.

Lemma digit_class_pred x :
  xorb false (cs_member false (set_test [CRange 48 57]) x) = is_digit x.
Proof. unfold cs_member, set_test, is_digit. cbn [existsb xorb item_test]. btauto. Qed.

Lemma sep_class_pred x :
  xorb false (cs_member false (set_test [CChar 45; CChar 46; CChar 32]) x) = is_sep x.
Proof.
  unfold cs_member, set_test, is_sep. cbn [existsb xorb item_test].
  rewrite (N.eqb_sym 45), (N.eqb_sym 46), (N.eqb_sym 32). btauto.
Qed.

Lemma lower_class_pred x :
  xorb false (cs_member false (set_test [CRange 97 122]) x) = is_ascii_lower x.
Proof. unfold cs_member, set_test, is_ascii_lower. cbn [existsb xorb item_test]. btauto. Qed.

Lemma upper_class_pred x :
  xorb false (cs_member false (set_test [CRange 65 90]) x) = is_ascii_upper x.
Proof. unfold cs_member, set_test, is_ascii_upper. cbn [existsb xorb item_test]. btauto. Qed.

Lemma char_pred c x : cs_member false (N.eqb c) x = N.eqb x c.
Proof. apply N.eqb_sym. Qed.

Lemma alnum_all_no_lt s :
  forallb is_alnum s = true -> forallb (fun x => negb (is_line_terminator x)) s = true.
Proof.
  rewrite !forallb_forall. intros H x Hx. apply alnum_not_lt, H, Hx.
Qed.

(** A run of digits cannot start with a unit that is not a digit. *)
Lemma m_digits_head n j rest x t k :
  is_digit x = false ->
  m false n (RSeq (RGroup (RRep digit_class (S j) (Some (S j)))) rest) (x :: t) k = false.
Proof.
  intros Hx. rewrite m_seq, m_group. erewrite m_run by reflexivity.
  rewrite take_run_head_false; [reflexivity | now rewrite digit_class_pred].
Qed.

(** *** Full name *)

(** [/^[A-Za-z ]+$/i] accepts exactly the non-empty strings of ASCII
    letters and spaces. *)
Theorem full_name_pattern_spec s :
  regex_test full_name_ignore_case full_name_pattern s = full_name_ok s.
Proof.
  unfold full_name_pattern. rewrite regex_test_bol_m.
  erewrite m_rep_eol by reflexivity.
  rewrite (forallb_ext_f _ _ _ full_name_class_pred).
  destruct s; simpl; [reflexivity | now rewrite andb_true_r].
Qed.

(** *** Password *)

(** The password pattern accepts exactly the strings of at least eight
    ASCII letters and digits that contain a lower-case letter, an
    upper-case letter and a digit: any other character is refused. *)
Theorem password_pattern_spec s :
  regex_test false password_pattern s = password_ok s.
Proof.
  unfold password_pattern. rewrite regex_test_bol_m.
  do 3 (rewrite m_seq, m_look; cbv beta; erewrite m_dotstar by reflexivity).
  erewrite m_rep_eol by reflexivity.
  rewrite (forallb_ext_f _ _ _ alnum_class_pred). unfold password_ok.
  destruct (forallb is_alnum s) eqn:Ha; [|btauto].
  rewrite !exists_before_lt_no_lt by (now apply alnum_all_no_lt).
  rewrite (existsb_ext_f _ _ _ lower_class_pred), (existsb_ext_f _ _ _ upper_class_pred),
    (existsb_ext_f _ _ _ (fun x => eq_refl : cs_member false (escape_test EDigit) x = is_digit x)).
  btauto.
Qed.

(** *** Contact number *)

Lemma sep_not_digit y : is_sep y = true -> is_digit y = false.
Proof.
  unfold is_sep. rewrite !orb_true_iff, !N.eqb_eq. intros [[-> | ->] | ->]; reflexivity.
Qed.

Lemma paren_pred_digit c y : c = 40%N \/ c = 41%N ->
  cs_member false (N.eqb c) y = true -> is_digit y = false.
Proof. rewrite char_pred, N.eqb_eq. intros [-> | ->] ->; reflexivity. Qed.

(** The backtracking matcher on the contact-number pattern computes the
    same answer as the one-pass scanner [contact_number_ok]: each optional
    unit ([(], [)], separators) is followed by something that cannot start
    with it, so no backtracking is ever needed. *)
Theorem contact_number_pattern_spec s :
  regex_test false contact_number_pattern s = contact_number_ok s.
Proof.
  unfold contact_number_pattern, contact_number_ok. rewrite regex_test_bol_m, m_seq.
  erewrite m_opt_det; [| reflexivity |
    intros x t Hx; apply m_digits_head, (paren_pred_digit 40); auto].
  rewrite m_seq, m_group. erewrite m_run by reflexivity. cbv beta.
  change (cs_member false (N.eqb 40)) with (N.eqb 40).
  rewrite (take_run_ext _ _ _ _ digit_class_pred).
  destruct (take_run is_digit 3 (drop_if (N.eqb 40) s)) as [s2|]; [|reflexivity].
  rewrite m_seq. erewrite m_opt_det; [| reflexivity |].
  2:{ intros x t Hx. apply (paren_pred_digit 41) in Hx as Hd; [|auto].
      rewrite char_pred, N.eqb_eq in Hx. subst x. cbv beta. rewrite m_seq.
      erewrite m_opt_det; [| reflexivity |
        intros y u Hy; apply m_digits_head, sep_not_digit; now rewrite <- sep_class_pred].
      apply m_digits_head. reflexivity. }
  cbv beta. change (cs_member false (N.eqb 41)) with (N.eqb 41). rewrite m_seq.
  erewrite m_opt_det; [| reflexivity |
    intros y u Hy; apply m_digits_head, sep_not_digit; now rewrite <- sep_class_pred].
  rewrite (drop_if_ext _ _ _ sep_class_pred), m_seq, m_group.
  erewrite m_run by reflexivity. cbv beta. rewrite (take_run_ext _ _ _ _ digit_class_pred).
  destruct (take_run is_digit 3 _) as [s4|]; [|reflexivity].
  rewrite m_seq. erewrite m_opt_det; [| reflexivity |
    intros y u Hy; apply m_digits_head, sep_not_digit; now rewrite <- sep_class_pred].
  rewrite (drop_if_ext _ _ _ sep_class_pred), m_seq, m_group.
  erewrite m_run by reflexivity. rewrite (take_run_ext _ _ _ _ digit_class_pred).
  destruct (take_run is_digit 4 _) as [[|x r]|]; reflexivity.
Qed.

Lemma nonempty_length {A} (l : list A) : l <> [] <-> 1 <= length l.
Proof. destruct l; simpl; split; intros; try lia; congruence. Qed.

Theorem email_pattern_spec s :
  regex_test false email_pattern s = true <-> email_shape s.
Proof.
  unfold email_pattern, email_shape. rewrite regex_test_bol.
  repeat setoid_rewrite sem_seq_iff. setoid_rewrite sem_eol_iff.
  setoid_rewrite (sem_rep_atom false _ (REsc ENotSpace) not_space 1 None);
    try solve [reflexivity | exact I].
  setoid_rewrite (sem_atom_iff false _ (RChar 64) (N.eqb 64)); [|reflexivity].
  setoid_rewrite (sem_atom_iff false _ (RChar 46) (N.eqb 46)); [|reflexivity].
  split.
  - intros (s' & s1 & (a & -> & Ha & Hla & _) & s2 & (x & -> & Hx) & s3 &
            (b & -> & Hb & Hlb & _) & s4 & (y & -> & Hy) & s5 &
            (c & -> & Hc & Hlc & _) & -> & ->).
    apply N.eqb_eq in Hx, Hy. subst x y. rewrite !app_nil_r.
    exists a, b, c. rewrite !nonempty_length. auto 10.
  - intros (a & b & c & -> & Hla & Hlb & Hlc & Ha & Hb & Hc).
    rewrite nonempty_length in Hla, Hlb, Hlc.
    exists [], (64%N :: b ++ 46%N :: c).
    split; [exists a; repeat split; auto |].
    exists (b ++ 46%N :: c). split; [exists 64%N; auto |].
    exists (46%N :: c). split; [exists b; repeat split; auto |].
    exists c. split; [exists 46%N; auto |].
    exists []. split; [exists c; rewrite app_nil_r; repeat split; auto | auto].
Qed.

Lemma take_run_some p k s r :
  take_run p k s = Some r <-> exists d, s = d ++ r /\ length d = k /\ forallb p d = true.
Proof.
  unfold take_run. split.
  - destruct (k <=? length s) eqn:Hk; simpl; [|discriminate].
    destruct (forallb p (firstn k s)) eqn:Hp; [|discriminate]. intros H; injection H as <-.
    exists (firstn k s). rewrite firstn_skipn, length_firstn. apply Nat.leb_le in Hk.
    split; [reflexivity | split; [lia | exact Hp]].
  - intros (d & -> & Hl & Hp).
    replace (firstn k (d ++ r)) with d by (rewrite firstn_app, <- Hl, firstn_all, Nat.sub_diag; simpl; now rewrite app_nil_r).
    replace (skipn k (d ++ r)) with r by (rewrite skipn_app, <- Hl, skipn_all, Nat.sub_diag; reflexivity).
    rewrite Hp, length_app. replace (k <=? length d + length r) with true
      by (symmetry; apply Nat.leb_le; lia). reflexivity.
Qed.

Lemma drop_if_cases p s : exists o, s = o ++ drop_if p s /\ opt_unit p o.
Proof.
  destruct s as [|x t]; [exists []; split; [reflexivity | now left]|]. simpl.
  destruct (p x) eqn:E; [exists [x] | exists []]; split; try reflexivity.
  - right. eauto.
  - now left.
Qed.

Lemma drop_if_opt p o t : opt_unit p o ->
  match t with x :: _ => p x = false | [] => True end -> drop_if p (o ++ t) = t.
Proof.
  intros [-> | (x & -> & Hx)] Ht; simpl; [|now rewrite Hx].
  destruct t as [|y t]; simpl; [reflexivity | now rewrite Ht].
Qed.

Lemma digit_head_not c d k rest : (c < 48)%N -> digits (S k) d ->
  match d ++ rest with x :: _ => N.eqb c x = false | [] => True end.
Proof.
  intros Hc [Hl Hd]. destruct d as [|x d]; [discriminate|]. simpl in Hd |- *.
  apply andb_true_iff in Hd as [Hx _]. apply N.eqb_neq. intros <-.
  apply in_range_iff in Hx. lia.
Qed.

Lemma digit_head_not_sep d k rest : digits (S k) d ->
  match d ++ rest with x :: _ => is_sep x = false | [] => True end.
Proof.
  intros [Hl Hd]. destruct d as [|x d]; [discriminate|]. simpl in Hd |- *.
  apply andb_true_iff in Hd as [Hx _]. destruct (is_sep x) eqn:E; [|reflexivity].
  apply sep_not_digit in E. congruence.
Qed.

Lemma opt_unit_eqb c o : opt_unit (N.eqb c) o -> o = [] \/ o = [c].
Proof. intros [-> | (x & -> & Hx)]; [now left | apply N.eqb_eq in Hx; subst; now right]. Qed.

Lemma contact_number_ok_iff s : contact_number_ok s = true <-> contact_number_shape s.
Proof.
  unfold contact_number_ok, contact_number_shape. split.
  - destruct (drop_if_cases (N.eqb 40) s) as (o & Eo & Ho).
    destruct (take_run is_digit 3 _) as [s2|] eqn:E1; [|discriminate].
    apply take_run_some in E1 as (d1 & E1 & Hl1 & Hd1).
    destruct (drop_if_cases (N.eqb 41) s2) as (c & Ec & Hc).
    destruct (drop_if_cases is_sep (drop_if (N.eqb 41) s2)) as (sp1 & Es1 & Hs1).
    destruct (take_run is_digit 3 _) as [s4|] eqn:E2; [|discriminate].
    apply take_run_some in E2 as (d2 & E2 & Hl2 & Hd2).
    destruct (drop_if_cases is_sep s4) as (sp2 & Es2 & Hs2).
    destruct (take_run is_digit 4 _) as [[|x r]|] eqn:E3; try discriminate. intros _.
    apply take_run_some in E3 as (d3 & E3 & Hl3 & Hd3). rewrite app_nil_r in E3.
    exists o, d1, c, sp1, d2, sp2, d3. repeat split; try assumption.
    rewrite Eo, E1, Ec, Es1, E2, Es2, E3. reflexivity.
  - intros (o & d1 & c & sp1 & d2 & sp2 & d3 & -> & Ho & Hc & Hs1 & Hs2 & H1 & H2 & H3).
    rewrite drop_if_opt by (exact Ho || exact (digit_head_not 40 d1 2 _ ltac:(lia) H1)).
    replace (take_run is_digit 3 _) with (Some (c ++ sp1 ++ d2 ++ sp2 ++ d3))
      by (symmetry; apply take_run_some; exists d1; destruct H1; auto).
    rewrite drop_if_opt; [|exact Hc|].
    2:{ destruct Hs1 as [-> | (x & -> & Hx)]; [exact (digit_head_not 41 d2 2 _ ltac:(lia) H2)|].
        cbn [app]. apply N.eqb_neq. intros <-. discriminate. }
    rewrite drop_if_opt by (exact Hs1 || exact (digit_head_not_sep d2 2 _ H2)).
    replace (take_run is_digit 3 _) with (Some (sp2 ++ d3))
      by (symmetry; apply take_run_some; exists d2; destruct H2; auto).
    rewrite drop_if_opt by (exact Hs2 || (pose proof (digit_head_not_sep d3 3 [] H3) as Hh;
      rewrite app_nil_r in Hh; exact Hh)).
    replace (take_run is_digit 4 d3) with (Some (@nil N)); [reflexivity|].
    symmetry. apply take_run_some. exists d3. rewrite app_nil_r. destruct H3; auto.
Qed.

(** ** The accepted languages, stated on the characters *)

(** C5: [/^[A-Za-z ]+$/i] accepts exactly the non-empty strings whose every
    unit is an ASCII letter or a space (so a name of spaces only passes). *)
Theorem full_name_accepts s :
  regex_test full_name_ignore_case full_name_pattern s = true <->
  s <> [] /\ Forall (fun c => is_name_char c = true) s.
Proof.
  rewrite full_name_pattern_spec. unfold full_name_ok.
  destruct s as [|c s]; [split; [discriminate | tauto]|].
  rewrite forallb_Forall. split; [split; [discriminate | assumption] | tauto].
Qed.

(** C4: The password pattern accepts exactly the strings of at least eight
    units, all ASCII letters or digits, with a lower-case letter, an
    upper-case letter and a digit. *)
Theorem password_accepts s :
  regex_test false password_pattern s = true <->
  8 <= length s /\ Forall (fun c => is_alnum c = true) s /\
  Exists (fun c => is_ascii_lower c = true) s /\ Exists (fun c => is_ascii_upper c = true) s /\
  Exists (fun c => is_digit c = true) s.
Proof.
  rewrite password_pattern_spec. unfold password_ok.
  rewrite !andb_true_iff, Nat.leb_le, forallb_Forall, !existsb_Exists. tauto.
Qed.

(** C22: The contact-number pattern accepts exactly the strings made of
    an optional [(], three digits, an optional [)], an optional separator
    ([-], [.] or a space), three digits, an optional separator and four
    digits, each optional part independent of the others. *)
Theorem contact_number_accepts s :
  regex_test false contact_number_pattern s = true <-> contact_number_shape s.
Proof. rewrite contact_number_pattern_spec. apply contact_number_ok_iff. Qed.

Lemma opt_unit_length p o : opt_unit p o -> length o <= 1.
Proof. intros [-> | (x & -> & _)]; simpl; lia. Qed.

(** C23: Every contact number the pattern accepts has between ten and
    fourteen code units, so the value sent is never empty nor longer than
    [(416) 555-0199]. *)
Theorem contact_number_length s :
  regex_test false contact_number_pattern s = true -> 10 <= length s <= 14.
Proof.
  rewrite contact_number_pattern_spec, contact_number_ok_iff.
  intros (o & d1 & c & sp1 & d2 & sp2 & d3 & -> & Ho & Hc & Hs1 & Hs2 & [L1 _] & [L2 _] & [L3 _]).
  apply opt_unit_length in Ho, Hc, Hs1, Hs2. rewrite !length_app. lia.
Qed.

Lemma nth_error_app_cons_at {A} (l1 l2 : list A) x : nth_error (l1 ++ x :: l2) (length l1) = Some x.
Proof. rewrite nth_error_app2, Nat.sub_diag by lia. reflexivity. Qed.

(** C24: The email pattern accepts exactly the strings without white space
    or line terminator that have an [@] after their first unit and a [.]
    at least two units after that [@] and before their last unit. *)
Theorem email_accepts s :
  regex_test false email_pattern s = true <->
  forallb not_space s = true /\
  exists i j, 1 <= i /\ i + 1 < j /\ j + 1 < length s /\
    nth_error s i = Some 64%N /\ nth_error s j = Some 46%N.
Proof.
  rewrite email_pattern_spec. unfold email_shape. split.
  - intros (a & b & c & -> & Ha & Hb & Hc & Fa & Fb & Fc).
    rewrite nonempty_length in Ha, Hb, Hc. split.
    + rewrite forallb_app. simpl. rewrite forallb_app. simpl. now rewrite Fa, Fb, Fc.
    + exists (length a), (length a + S (length b)). rewrite !length_app. simpl.
      rewrite length_app. simpl. repeat split; try lia.
      * apply nth_error_app_cons_at.
      * rewrite nth_error_app2 by lia. replace (length a + S (length b) - length a) with (S (length b)) by lia.
        simpl. apply nth_error_app_cons_at.
  - intros (F & i & j & Hi & Hij & Hj & E1 & E2).
    destruct (nth_error_split s i E1) as (a & l2 & -> & La).
    rewrite nth_error_app2 in E2 by lia. replace (j - length a) with (S (j - i - 1)) in E2 by lia.
    simpl in E2. destruct (nth_error_split l2 _ E2) as (b & c & -> & Lb).
    rewrite !length_app in Hj. simpl in Hj. rewrite length_app in Hj. simpl in Hj.
    rewrite forallb_app in F. simpl in F. rewrite forallb_app in F. simpl in F.
    repeat match goal with H : _ && _ = true |- _ => apply andb_true_iff in H as [? ?] end.
    exists a, b, c. rewrite !nonempty_length. repeat split; try assumption; lia.
Qed.

Lemma contact_number_length_witness :
  regex_test false contact_number_pattern (js "(416) 555-0199") = true /\
  10 <= length (js "(416) 555-0199") <= 14.
Proof.
  split; [rewrite contact_number_pattern_spec; reflexivity|].
  apply contact_number_length. rewrite contact_number_pattern_spec. reflexivity.
Defined.

