(* ===== verification/Form.v ===== *)
(** The registration form's fields and values, and the option lists of its
    three [select] controls ([RegistrationForm.jsx], the JSX body). *)
From Stdlib Require Import List Bool Arith Lia ZArith.
From S2P Require Import Prelude JsString.
Import ListNotations.

(** ** Fields *)

(** The eight registered fields, in the order of their [register] calls. *)
Inductive field :=
  | FullName | ContactNumber | Day | Month | Year | Email | Password | ConfirmPassword.

Definition field_eq_dec (f g : field) : {f = g} + {f <> g}.
Proof. decide equality. Defined.

Definition registered_fields : list field :=
  [FullName; ContactNumber; Day; Month; Year; Email; Password; ConfirmPassword].

Definition field_name (f : field) : jsstr :=
  match f with
  | FullName => js "full_name"
  | ContactNumber => js "contact_number"
  | Day => js "day"
  | Month => js "month"
  | Year => js "year"
  | Email => js "email"
  | Password => js "password"
  | ConfirmPassword => js "confirm_password"
  end.

(** The values react-hook-form keeps for the fields (raw strings: text
    inputs and select values alike). *)
Record form := mk_form {
  full_name : jsstr; contact_number : jsstr; day : jsstr; month : jsstr;
  year : jsstr; email : jsstr; password : jsstr; confirm_password : jsstr }.

Definition get (f : field) (v : form) : jsstr :=
  match f with
  | FullName => full_name v | ContactNumber => contact_number v
  | Day => day v | Month => month v | Year => year v
  | Email => email v | Password => password v | ConfirmPassword => confirm_password v
  end.

Definition set (f : field) (x : jsstr) (v : form) : form :=
  let 'mk_form a b c d e g h i := v in
  match f with
  | FullName => mk_form x b c d e g h i
  | ContactNumber => mk_form a x c d e g h i
  | Day => mk_form a b x d e g h i
  | Month => mk_form a b c x e g h i
  | Year => mk_form a b c d x g h i
  | Email => mk_form a b c d e x h i
  | Password => mk_form a b c d e g x i
  | ConfirmPassword => mk_form a b c d e g h x
  end.

(** The form after [reset()] with no default values: every control empty. *)
Definition empty_form : form := mk_form [] [] [] [] [] [] [] [].

(** ** Select options *)

(** Day: a placeholder with value [''], then [value={i + 1}] for
    [i] in [0..30]. *)
Definition day_options : list jsstr :=
  [] :: map (fun i => string_of_Z (Z.of_nat i + 1)) (seq 0 31).

Definition month_options : list jsstr :=
  [[]; js "01"; js "02"; js "03"; js "04"; js "05"; js "06";
   js "07"; js "08"; js "09"; js "10"; js "11"; js "12"].

(** Year: [new Date().getFullYear() - i] for [i] in [0..99], read at
    render time; [current_year] is that year. *)
Definition year_options (current_year : Z) : list jsstr :=
  [] :: map (fun i => string_of_Z (current_year - Z.of_nat i)) (seq 0 100).

(** The values a control can hold: a select only its options, a text
    input anything. *)
Definition field_options (current_year : Z) (f : field) : option (list jsstr) :=
  match f with
  | Day => Some day_options
  | Month => Some month_options
  | Year => Some (year_options current_year)
  | _ => None
  end.

(** ** Lemmas *)

Lemma get_set_eq f x v : get f (set f x v) = x.
Proof. destruct v, f; reflexivity. Qed.

Lemma get_set_ne f g x v : f <> g -> get g (set f x v) = get g v.
Proof. destruct v; intros H; destruct f, g; simpl; congruence. Qed.

