(* ===== verification/Validation.v ===== *)
(** Field validation: the [register] options of [RegistrationForm.jsx]
    (the rules) and how react-hook-form applies them when the form is
    submitted ([validateField], first error of each field). *)
From Stdlib Require Import List Bool Arith Lia NArith.
From S2P Require Import Prelude JsString Regex Patterns Form.
Import ListNotations.

(** ** Rules *)

(** What a [validate] function returns: [true], [false] or a message. *)
Inductive validate_result := VBool (b : bool) | VMsg (msg : jsstr).

(** The [register] options used by the form: [required] with its message,
    [pattern] with its regex (and [i] flag) and message, [validate] with
    access to the current form values ([watch]), and [deps], the fields
    whose validation a change of this one triggers (the form passes none). *)
Record rules := mk_rules {
  required : option jsstr;
  pattern : option (bool * regex * jsstr);
  validate : option (jsstr -> form -> validate_result);
  deps : list field }.

(** [validate: (value) => value === watch('password') || 'The passwords do not match'] *)
Definition confirm_password_validate (value : jsstr) (v : form) : validate_result :=
  if js_eqb value (password v) then VBool true else VMsg (js "The passwords do not match").

Definition form_rules (f : field) : rules :=
  match f with
  | FullName => mk_rules (Some (js "Full name is required"))
      (Some (full_name_ignore_case, full_name_pattern,
             js "Full name must not contain numbers or special characters")) None []
  | ContactNumber => mk_rules (Some (js "Contact number is required"))
      (Some (false, contact_number_pattern, js "Invalid Canadian phone number format")) None []
  | Day => mk_rules (Some (js "Day is required")) None None []
  | Month => mk_rules (Some (js "Month is required")) None None []
  | Year => mk_rules (Some (js "Year is required")) None None []
  | Email => mk_rules (Some (js "Email is required"))
      (Some (false, email_pattern, js "Invalid email format")) None []
  | Password => mk_rules (Some (js "Password is required"))
      (Some (false, password_pattern,
             js "Password must contain 8 characters, at least one uppercase letter, one lowercase letter, and one number"))
      None []
  | ConfirmPassword => mk_rules None None (Some confirm_password_validate) []
  end.

(** ** react-hook-form's [validateField] *)

(** [getValidateError]: a string is the message, [false] an error with an
    empty message, [true] no error. *)
Definition validate_error (r : validate_result) : option jsstr :=
  match r with
  | VMsg msg => Some msg
  | VBool false => Some []
  | VBool true => None
  end.

Definition pattern_error (r : rules) (value : jsstr) : option jsstr :=
  match pattern r, value with
  | Some (ic, re, msg), _ :: _ => if regex_test ic re value then None else Some msg
  | _, _ => None
  end.

Definition validate_fn_error (r : rules) (value : jsstr) (v : form) : option jsstr :=
  match validate r with
  | Some fn => validate_error (fn value v)
  | None => None
  end.

(** In order: [required] on an empty value; [pattern] on a non-empty value
    ([inputValue.match(pattern)]); [validate] on any value.  The first
    failing rule gives the field's error. *)
Definition validate_field (r : rules) (value : jsstr) (v : form) : option jsstr :=
  match required r, value with
  | Some msg, [] => Some msg
  | _, _ =>
    match pattern_error r value with
    | Some msg => Some msg
    | None => validate_fn_error r value v
    end
  end.

(** [handleSubmit]'s validation pass: every registered field, in order,
    with its first error. *)
Definition validate_all (v : form) : list (field * jsstr) :=
  flat_map (fun f => match validate_field (form_rules f) (get f v) v with
                     | Some msg => [(f, msg)]
                     | None => []
                     end) registered_fields.

Definition field_error (v : form) (f : field) : option jsstr :=
  validate_field (form_rules f) (get f v) v.

(** ** Behaviour of the rules *)

(** A field with [required] and [pattern] (and no [validate]): empty gives
    the required message, otherwise the pattern decides. *)
Lemma validate_field_req_pat r rm ic re pm x v :
  required r = Some rm -> pattern r = Some (ic, re, pm) -> validate r = None ->
  validate_field r x v =
  match x with [] => Some rm | _ => if regex_test ic re x then None else Some pm end.
Proof.
  intros Hr Hp Hv. unfold validate_field, pattern_error, validate_fn_error.
  rewrite Hr, Hp, Hv. destruct x; [reflexivity|]. now destruct regex_test.
Qed.

Lemma validate_field_req_pat_none r rm ic re pm x v (P : jsstr -> Prop) :
  required r = Some rm -> pattern r = Some (ic, re, pm) -> validate r = None ->
  (forall y, y <> [] -> regex_test ic re y = true <-> P y) -> ~ P [] ->
  validate_field r x v = None <-> P x.
Proof.
  intros Hr Hp Hv HP H0. rewrite (validate_field_req_pat r rm ic re pm) by assumption.
  destruct x as [|c x]; [split; [discriminate | tauto]|].
  rewrite <- HP by discriminate. destruct regex_test; split; congruence.
Qed.

Lemma validate_field_req_only r rm x v :
  required r = Some rm -> pattern r = None -> validate r = None ->
  validate_field r x v = match x with [] => Some rm | _ => None end.
Proof.
  intros Hr Hp Hv. unfold validate_field, pattern_error, validate_fn_error.
  rewrite Hr, Hp, Hv. now destruct x.
Qed.

(** Each field's error, stated on its value. *)
Lemma field_error_none_iff v f :
  field_error v f = None <->
  match f with
  | FullName => full_name_ok (full_name v) = true
  | ContactNumber => contact_number_ok (contact_number v) = true
  | Day => day v <> []
  | Month => month v <> []
  | Year => year v <> []
  | Email => email_shape (email v)
  | Password => password_ok (password v) = true
  | ConfirmPassword => confirm_password v = password v
  end.
Proof.
  unfold field_error. destruct f; simpl get.
  - eapply validate_field_req_pat_none with (P := (fun y => full_name_ok y = true));
      try reflexivity; [intros y _; now rewrite full_name_pattern_spec | discriminate].
  - eapply validate_field_req_pat_none with (P := (fun y => contact_number_ok y = true));
      try reflexivity; [intros y _; now rewrite contact_number_pattern_spec | discriminate].
  - erewrite validate_field_req_only by reflexivity. destruct (day v); split; congruence.
  - erewrite validate_field_req_only by reflexivity. destruct (month v); split; congruence.
  - erewrite validate_field_req_only by reflexivity. destruct (year v); split; congruence.
  - eapply validate_field_req_pat_none with (P := email_shape);
      try reflexivity; [intros y _; apply email_pattern_spec |].
    intros (a & b & c & H & Ha & _). destruct a; [congruence | discriminate].
  - eapply validate_field_req_pat_none with (P := (fun y => password_ok y = true));
      try reflexivity; [intros y _; now rewrite password_pattern_spec | discriminate].
  - unfold validate_field, pattern_error, validate_fn_error; simpl.
    unfold confirm_password_validate. rewrite <- js_eqb_eq.
    destruct js_eqb; simpl; split; intros; congruence.
Qed.

Lemma validate_all_nil_iff_forall v :
  validate_all v = [] <-> forall f, field_error v f = None.
Proof.
  unfold validate_all, field_error. split.
  - intros H f. destruct (validate_field (form_rules f) (get f v) v) eqn:E; [|reflexivity].
    exfalso. assert (Hin : In (f, j) (flat_map (fun f0 =>
      match validate_field (form_rules f0) (get f0 v) v with
      | Some msg => [(f0, msg)] | None => [] end) registered_fields)).
    { apply in_flat_map. exists f. split; [destruct f; simpl; tauto | rewrite E; now left]. }
    rewrite H in Hin. exact Hin.
  - intros H. unfold registered_fields. cbn [flat_map]. now rewrite !H.
Qed.

(** C1: The form passes validation exactly when every field satisfies its
    rule: a non-empty name of letters and spaces, a contact number of the
    3-3-4 shape, a chosen day, month and year, an [a@b.c] email, a password
    of 8+ letters and digits with all three classes, and a confirmation
    equal to the password. *)
Theorem validate_all_nil_iff v :
  validate_all v = [] <->
  full_name_ok (full_name v) = true /\ contact_number_ok (contact_number v) = true /\
  day v <> [] /\ month v <> [] /\ year v <> [] /\ email_shape (email v) /\
  password_ok (password v) = true /\ confirm_password v = password v.
Proof.
  rewrite validate_all_nil_iff_forall. split.
  - intros H.
    pose proof (fun f => proj1 (field_error_none_iff v f) (H f)) as G.
    exact (conj (G FullName) (conj (G ContactNumber) (conj (G Day) (conj (G Month)
      (conj (G Year) (conj (G Email) (conj (G Password) (G ConfirmPassword)))))))).
  - intros (H1 & H2 & H3 & H4 & H5 & H6 & H7 & H8) f.
    apply field_error_none_iff. destruct f; assumption.
Qed.

(** ** Particular behaviours *)

(** C13: An empty control gets the [required] message of its [register]
    call, before any pattern; an empty confirmation, which has no
    [required], passes only when the password is empty too. *)
Theorem empty_field_required v f :
  get f v = [] ->
  field_error v f =
  match f with
  | FullName => Some (js "Full name is required")
  | ContactNumber => Some (js "Contact number is required")
  | Day => Some (js "Day is required")
  | Month => Some (js "Month is required")
  | Year => Some (js "Year is required")
  | Email => Some (js "Email is required")
  | Password => Some (js "Password is required")
  | ConfirmPassword =>
      match password v with [] => None | _ :: _ => Some (js "The passwords do not match") end
  end.
Proof.
  unfold field_error. intros ->.
  destruct f; try reflexivity.
  unfold validate_field, pattern_error, validate_fn_error. simpl.
  unfold confirm_password_validate. destruct (password v); reflexivity.
Qed.

(** C12: The confirmation is checked against the password at validation time:
    changing the password to anything else makes the confirmation fail
    with its fixed message. *)
Theorem confirm_password_invalidated v p :
  confirm_password v <> p ->
  field_error (set Password p v) ConfirmPassword = Some (js "The passwords do not match").
Proof.
  intros H. unfold field_error. destruct v as [a b c d e g h i]. simpl in *.
  unfold validate_field, pattern_error, validate_fn_error, confirm_password_validate. simpl.
  destruct (js_eqb i p) eqn:E; [apply js_eqb_eq in E; congruence | reflexivity].
Qed.

(** C18: [required] does not trim: a full name made only of spaces passes both
    rules. *)
Theorem blank_full_name_passes v :
  full_name v <> [] -> Forall (fun c => c = 32%N) (full_name v) ->
  field_error v FullName = None.
Proof.
  intros Hne Hsp. apply (field_error_none_iff v FullName).
  unfold full_name_ok. destruct (full_name v) as [|c s]; [congruence|].
  apply forallb_Forall. eapply Forall_impl; [|exact Hsp]. intros x ->. reflexivity.
Qed.

Lemma empty_field_required_witness :
  field_error empty_form Email = Some (js "Email is required").
Proof. apply (empty_field_required empty_form Email). reflexivity. Defined.

Lemma confirm_password_invalidated_witness :
  field_error (set Password (js "Zyxwvu98")
                 (mk_form [] [] [] [] [] [] (js "Abcdef12") (js "Abcdef12"))) ConfirmPassword
  = Some (js "The passwords do not match").
Proof. apply confirm_password_invalidated. simpl. discriminate. Defined.

Lemma blank_full_name_passes_witness :
  field_error (mk_form (js "   ") [] [] [] [] [] [] []) FullName = None.
Proof. apply blank_full_name_passes; simpl; [discriminate | repeat constructor]. Defined.
