(* ===== verification/DateOfBirth.v ===== *)
(** The [date_of_birth] string [onSubmit] composes from the three selects:
    [`${data.year}-${String(data.month).padStart(2, '0')}-${String(data.day).padStart(2, '0')}`],
    and reading it back as an ISO date. *)
From Stdlib Require Import List Bool Arith Lia ZArith.
From S2P Require Import Prelude JsString Form.
Import ListNotations.

Definition dash : N := 45%N.

Definition date_of_birth (v : form) : jsstr :=
  year v ++ dash :: pad_start (month v) 2 (js "0") ++ dash :: pad_start (day v) 2 (js "0").

(** ** Reading an ISO date back *)

(** [s.split('-')]. *)
Fixpoint split_on (sep : N) (s : jsstr) : list jsstr :=
  match s with
  | [] => [[]]
  | x :: t =>
      if N.eqb x sep then [] :: split_on sep t
      else match split_on sep t with
           | p :: ps => (x :: p) :: ps
           | [] => [[x]]
           end
  end.

(** [YYYY-MM-DD] read as (year, month, day): three dash-separated parts,
    two-digit month and day. *)
Definition parse_iso (s : jsstr) : option (Z * Z * Z) :=
  match split_on dash s with
  | [y; mo; d] =>
      if (length mo =? 2) && (length d =? 2) then
        match parse_nonneg y, parse_nonneg mo, parse_nonneg d with
        | Some y, Some mo, Some d => Some (y, mo, d)
        | _, _, _ => None
        end
      else None
  | _ => None
  end.

(** What a padded select value must satisfy for the round trip: two
    digits, read as the same number as the unpadded value, within
    [lo..hi]. *)
Definition padded_ok (lo hi : Z) (d : jsstr) : bool :=
  let p := pad_start d 2 (js "0") in
  forallb is_digit p && (length p =? 2) &&
  match parse_nonneg p, parse_nonneg d with
  | Some a, Some b => Z.eqb a b && (lo <=? a)%Z && (a <=? hi)%Z
  | _, _ => false
  end.

(** ** Lemmas *)

Lemma split_on_nosep sep a :
  forallb (fun x => negb (N.eqb x sep)) a = true -> split_on sep a = [a].
Proof.
  induction a as [|x a IH]; simpl; [reflexivity|].
  intros H. apply andb_true_iff in H as [Hx H]. apply negb_true_iff in Hx.
  now rewrite Hx, IH.
Qed.

Lemma split_on_app sep a b :
  forallb (fun x => negb (N.eqb x sep)) a = true ->
  split_on sep (a ++ sep :: b) = a :: split_on sep b.
Proof.
  induction a as [|x a IH]; simpl; intros H; [now rewrite N.eqb_refl|].
  apply andb_true_iff in H as [Hx H]. apply negb_true_iff in Hx.
  now rewrite Hx, IH.
Qed.

Lemma digits_nodash s : forallb is_digit s = true -> forallb (fun x => negb (N.eqb x dash)) s = true.
Proof.
  rewrite !forallb_forall. intros H x Hx. specialize (H x Hx).
  destruct (N.eqb_spec x dash); subst; [discriminate | reflexivity].
Qed.

Lemma day_options_padded : forallb (padded_ok 1 31) (tl day_options) = true.
Proof. vm_compute. reflexivity. Qed.

Lemma month_options_padded : forallb (padded_ok 1 12) (tl month_options) = true.
Proof. vm_compute. reflexivity. Qed.

Lemma padded_ok_option lo hi opts d :
  forallb (padded_ok lo hi) (tl opts) = true -> hd_error opts = Some [] ->
  In d opts -> d <> [] -> padded_ok lo hi d = true.
Proof.
  destruct opts as [|o opts]; [discriminate|]. simpl. intros Hall [= ->] [<- | Hin] Hne;
    [congruence | exact (proj1 (forallb_forall _ _) Hall d Hin)].
Qed.

Lemma padded_ok_spec lo hi d :
  padded_ok lo hi d = true ->
  forallb is_digit (pad_start d 2 (js "0")) = true /\ length (pad_start d 2 (js "0")) = 2 /\
  exists a, parse_nonneg (pad_start d 2 (js "0")) = Some a /\ parse_nonneg d = Some a /\
            (lo <= a <= hi)%Z.
Proof.
  unfold padded_ok. intros H.
  apply andb_true_iff in H as [H Hp]. apply andb_true_iff in H as [Hdig Hlen].
  apply Nat.eqb_eq in Hlen.
  destruct (parse_nonneg (pad_start d 2 (js "0"))) as [a|], (parse_nonneg d) as [b|];
    try discriminate.
  apply andb_true_iff in Hp as [Hp Hhi]. apply andb_true_iff in Hp as [Hab Hlo].
  apply Z.eqb_eq in Hab. apply Z.leb_le in Hlo, Hhi. subst b.
  repeat split; eauto.
Qed.

Lemma year_option_spec cy y :
  (100 <= cy)%Z -> In y (year_options cy) -> y <> [] ->
  exists k, k < 100 /\ y = string_of_Z (cy - Z.of_nat k).
Proof.
  intros Hcy [<- | Hin] Hne; [congruence|].
  apply in_map_iff in Hin as (k & <- & Hk). apply in_seq in Hk. exists k. split; [lia | reflexivity].
Qed.

(** C7: The composed [date_of_birth] of any choice of the three selects reads
    back, as an ISO date, as exactly the chosen year, month and day, with
    the month and day zero-padded to two digits and no check that the day
    exists in that month. *)
Theorem date_of_birth_roundtrip cy v :
  (100 <= cy)%Z ->
  In (day v) day_options -> day v <> [] ->
  In (month v) month_options -> month v <> [] ->
  In (year v) (year_options cy) -> year v <> [] ->
  exists y mo d, parse_iso (date_of_birth v) = Some (y, mo, d) /\
    parse_nonneg (year v) = Some y /\ parse_nonneg (month v) = Some mo /\
    parse_nonneg (day v) = Some d /\
    (cy - 99 <= y <= cy)%Z /\ (1 <= mo <= 12)%Z /\ (1 <= d <= 31)%Z.
Proof.
  intros Hcy Hd Hd0 Hm Hm0 Hy Hy0.
  destruct (padded_ok_spec _ _ _ (padded_ok_option 1 31 _ _ day_options_padded eq_refl Hd Hd0))
    as (Hdd & Hdl & a & Hpa & Hda & Ha).
  destruct (padded_ok_spec _ _ _ (padded_ok_option 1 12 _ _ month_options_padded eq_refl Hm Hm0))
    as (Hmd & Hml & b & Hpb & Hmb & Hb).
  destruct (year_option_spec cy _ Hcy Hy Hy0) as (k & Hk & Hyk).
  destruct (string_of_Z_digits (cy - Z.of_nat k) ltac:(lia)) as [Hyd _].
  exists (cy - Z.of_nat k)%Z, b, a.
  unfold parse_iso, date_of_birth.
  rewrite split_on_app by (apply digits_nodash; now rewrite Hyk).
  rewrite split_on_app by (now apply digits_nodash).
  rewrite split_on_nosep by (now apply digits_nodash).
  rewrite Hml, Hdl. simpl. rewrite Hyk, parse_string_of_Z, Hpb, Hpa by lia.
  repeat split; auto; lia.
Qed.

Lemma date_of_birth_roundtrip_witness :
  exists y mo d,
    parse_iso (date_of_birth (mk_form [] [] (js "5") (js "02") (js "1990") [] [] [])) =
      Some (y, mo, d) /\
    parse_nonneg (js "1990") = Some y /\ parse_nonneg (js "02") = Some mo /\
    parse_nonneg (js "5") = Some d /\
    (2026 - 99 <= y <= 2026)%Z /\ (1 <= mo <= 12)%Z /\ (1 <= d <= 31)%Z.
Proof.
  apply (date_of_birth_roundtrip 2026 (mk_form [] [] (js "5") (js "02") (js "1990") [] [] []));
    simpl; solve [lia | in_list | discriminate].
Defined.

(** ** Bounds *)

Lemma four_digit_years :
  forallb (fun a => forallb (fun b =>
    length (string_of_Z (100 * Z.of_nat a + Z.of_nat b)) =? 4) (seq 0 100)) (seq 10 90) = true.
Proof. vm_compute. reflexivity. Qed.

Lemma string_of_Z_length4 z : (1000 <= z <= 9999)%Z -> length (string_of_Z z) = 4.
Proof.
  intros Hz. pose proof (Z.div_mod z 100 ltac:(lia)) as Hdm.
  pose proof (Z.mod_pos_bound z 100 ltac:(lia)) as Hb.
  set (a := (z / 100)%Z) in *. set (b := (z mod 100)%Z) in *.
  assert (Ha : (10 <= a <= 99)%Z) by lia.
  pose proof four_digit_years as H. rewrite forallb_forall in H.
  specialize (H (Z.to_nat a) ltac:(apply in_seq; lia)).
  rewrite forallb_forall in H. specialize (H (Z.to_nat b) ltac:(apply in_seq; lia)).
  rewrite !Z2Nat.id in H by lia. apply Nat.eqb_eq in H. rewrite Hdm. exact H.
Qed.

(** C19: When the page is rendered in a year between 1099 and 9999, every
    choice of the three selects composes a [date_of_birth] of exactly ten
    code units ([YYYY-MM-DD]): four year digits, two month digits, two day
    digits and two dashes. *)
Theorem date_of_birth_length cy v :
  (1099 <= cy <= 9999)%Z ->
  In (day v) day_options -> day v <> [] ->
  In (month v) month_options -> month v <> [] ->
  In (year v) (year_options cy) -> year v <> [] ->
  length (date_of_birth v) = 10.
Proof.
  intros Hcy Hd Hd0 Hm Hm0 Hy Hy0.
  destruct (padded_ok_spec _ _ _ (padded_ok_option 1 31 _ _ day_options_padded eq_refl Hd Hd0))
    as (_ & Hdl & _).
  destruct (padded_ok_spec _ _ _ (padded_ok_option 1 12 _ _ month_options_padded eq_refl Hm Hm0))
    as (_ & Hml & _).
  destruct (year_option_spec cy _ ltac:(lia) Hy Hy0) as (k & Hk & Hyk).
  unfold date_of_birth. rewrite length_app, Hyk. simpl. rewrite length_app. simpl.
  rewrite Hdl, Hml, string_of_Z_length4 by lia. reflexivity.
Qed.

Lemma date_of_birth_length_witness :
  length (date_of_birth (mk_form [] [] (js "5") (js "02") (js "1990") [] [] [])) = 10.
Proof.
  apply (date_of_birth_length 2026 (mk_form [] [] (js "5") (js "02") (js "1990") [] [] []));
    simpl; solve [lia | in_list | discriminate].
Defined.
