(* ===== verification/JsValue.v ===== *)
(** JavaScript values as the form handles them: request payloads and
    response bodies (JSON), truthiness for [||] and [&&], property access
    that throws on [null] and [undefined], and ordinary objects as
    insertion-ordered property lists. *)
From Stdlib Require Import List Bool Arith Lia ZArith.
From S2P Require Import Prelude JsString.
Import ListNotations.

#[warnings="-register-all"]
Inductive jsval :=
  | JUndefined
  | JNull
  | JBool (b : bool)
  | JNum (z : Z)                          (* integral Numbers *)
  | JStr (s : jsstr)
  | JObj (props : list (jsstr * jsval)).  (* own properties, in order *)

Definition jsobj := list (jsstr * jsval).

(** Induction on values, with the hypothesis for every member of an
    object. *)
Section jsval_ind_members.
Variable P : jsval -> Prop.
Hypothesis HUndefined : P JUndefined.
Hypothesis HNull : P JNull.
Hypothesis HBool : forall b, P (JBool b).
Hypothesis HNum : forall z, P (JNum z).
Hypothesis HStr : forall s, P (JStr s).
Hypothesis HObj : forall ps, Forall (fun p => P (snd p)) ps -> P (JObj ps).

Fixpoint jsval_ind_members (v : jsval) : P v :=
  match v with
  | JUndefined => HUndefined
  | JNull => HNull
  | JBool b => HBool b
  | JNum z => HNum z
  | JStr s => HStr s
  | JObj ps =>
      HObj ps ((fix go (ps : list (jsstr * jsval)) : Forall (fun p => P (snd p)) ps :=
                  match ps with
                  | [] => Forall_nil _
                  | (k, x) :: ps' => @Forall_cons _ (fun p => P (snd p)) (k, x) ps'
                                       (jsval_ind_members x) (go ps')
                  end) ps)
  end.
End jsval_ind_members.

(** ** Ordinary objects *)

Fixpoint obj_get (o : jsobj) (k : jsstr) : jsval :=
  match o with
  | [] => JUndefined
  | (k', x) :: o' => if js_eqb k k' then x else obj_get o' k
  end.

(** [CreateDataProperty]: an existing key keeps its place, a new key goes
    last. *)
Fixpoint obj_set (o : jsobj) (k : jsstr) (x : jsval) : jsobj :=
  match o with
  | [] => [(k, x)]
  | (k', y) :: o' => if js_eqb k k' then (k', x) :: o' else (k', y) :: obj_set o' k x
  end.

(** [delete o[k]]. *)
Definition obj_delete (o : jsobj) (k : jsstr) : jsobj :=
  filter (fun p => negb (js_eqb k (fst p))) o.

(** [{...src}] into [dst]: CopyDataProperties, in [src]'s key order. *)
Definition obj_spread (src dst : jsobj) : jsobj :=
  fold_left (fun acc p => obj_set acc (fst p) (snd p)) src dst.

(** ** Truthiness, [||], property access *)

Definition truthy (v : jsval) : bool :=
  match v with
  | JUndefined | JNull => false
  | JBool b => b
  | JNum z => negb (Z.eqb z 0)
  | JStr s => match s with [] => false | _ => true end
  | JObj _ => true
  end.

(** [a || b]: [a] when truthy, [b] otherwise. *)
Definition js_or (a b : jsval) : jsval := if truthy a then a else b.

(** [v.k]: [None] is the TypeError of reading a property of [undefined] or
    [null].  Primitives have no own property besides a string's [length]
    (and its index keys, which the form never reads). *)
Definition get_prop (v : jsval) (k : jsstr) : option jsval :=
  match v with
  | JUndefined | JNull => None
  | JObj ps => Some (obj_get ps k)
  | JStr s => Some (if js_eqb k (js "length") then JNum (Z.of_nat (length s)) else JUndefined)
  | JBool _ | JNum _ => Some JUndefined
  end.

(** ** Lemmas *)

Lemma obj_get_set_eq o k x : obj_get (obj_set o k x) k = x.
Proof.
  induction o as [|[k' y] o IH]; simpl; [now rewrite js_eqb_refl|].
  destruct (js_eqb k k') eqn:E; simpl; rewrite E; [reflexivity | exact IH].
Qed.

Lemma obj_get_set_ne o k k' x : k <> k' -> obj_get (obj_set o k x) k' = obj_get o k'.
Proof.
  intros Hne. induction o as [|[k0 y] o IH]; simpl.
  - destruct (js_eqb k' k) eqn:E; [apply js_eqb_eq in E; congruence | reflexivity].
  - destruct (js_eqb k k0) eqn:E; simpl.
    + apply js_eqb_eq in E; subst k0.
      destruct (js_eqb k' k) eqn:E'; [apply js_eqb_eq in E'; congruence | reflexivity].
    + now rewrite IH.
Qed.

Lemma obj_get_delete_eq o k : obj_get (obj_delete o k) k = JUndefined.
Proof.
  induction o as [|[k' y] o IH]; simpl; [reflexivity|].
  destruct (js_eqb k k') eqn:E; simpl; [exact IH | now rewrite E].
Qed.

Lemma obj_get_delete_ne o k k' : k <> k' -> obj_get (obj_delete o k) k' = obj_get o k'.
Proof.
  intros Hne. induction o as [|[k0 y] o IH]; simpl; [reflexivity|].
  destruct (js_eqb k k0) eqn:E; simpl.
  - apply js_eqb_eq in E; subst k0.
    destruct (js_eqb k' k) eqn:E'; [apply js_eqb_eq in E'; congruence | exact IH].
  - now rewrite IH.
Qed.


(** A key not yet present goes last. *)
Lemma obj_set_fresh o k x : ~ In k (map fst o) -> obj_set o k x = o ++ [(k, x)].
Proof.
  induction o as [|[k' y] o IH]; simpl; [reflexivity|]. intros Hn.
  destruct (js_eqb k k') eqn:E; [apply js_eqb_eq in E; subst; tauto|].
  f_equal. apply IH. tauto.
Qed.

Lemma obj_set_keys o k x k' : In k' (map fst (obj_set o k x)) <-> k' = k \/ In k' (map fst o).
Proof.
  induction o as [|[k0 y] o IH]; simpl; [intuition congruence|].
  destruct (js_eqb k k0) eqn:E; simpl.
  - apply js_eqb_eq in E. subst. intuition congruence.
  - rewrite IH. tauto.
Qed.
