(* ===== verification/Payload.v ===== *)
(** The request body [onSubmit] builds: [postData = {...data, date_of_birth}]
    followed by [delete postData.day], [.month], [.year]. *)
From Stdlib Require Import List Bool Arith Lia ZArith.
From S2P Require Import Prelude JsString Form DateOfBirth JsValue.
Import ListNotations.

(** The [data] object [handleSubmit] passes: one string property per
    registered field, in registration order. *)
Definition form_data (v : form) : jsobj :=
  map (fun f => (field_name f, JStr (get f v))) registered_fields.

Definition post_data (v : form) : jsobj :=
  let date_of_birth := date_of_birth v in
  let o := obj_set (obj_spread (form_data v) []) (js "date_of_birth") (JStr date_of_birth) in
  obj_delete (obj_delete (obj_delete o (js "day")) (js "month")) (js "year").

(** ** Shape of the payload *)

(** C6: The keys sent, in order: [confirm_password] is not deleted and goes
    to the server with the other four fields and [date_of_birth]. *)
Theorem post_data_keys v :
  map fst (post_data v) =
  [js "full_name"; js "contact_number"; js "email"; js "password";
   js "confirm_password"; js "date_of_birth"].
Proof. destruct v; reflexivity. Qed.

(** C17: Every field other than the three selects is sent with its value;
    the selects are only sent through [date_of_birth]. *)
Theorem post_data_values v f :
  obj_get (post_data v) (field_name f) =
  match f with
  | Day | Month | Year => JUndefined
  | _ => JStr (get f v)
  end.
Proof. destruct v, f; reflexivity. Qed.

