(* ===== verification/Json.v ===== *)
(** JSON text: [JSON.stringify] as axios applies it to [postData] (no
    replacer, no indentation), and [JSON.parse] as the receiving side reads
    that text, for the values of [JsValue] (objects, strings, integral
    numbers, booleans, [null]). *)
From Stdlib Require Import List Bool Arith Lia ZArith NArith DecimalFacts DecimalPos.
From S2P Require Import Prelude JsString Form JsValue Payload.
Import ListNotations.

(** ** [JSON.stringify] *)

Definition is_lead_surrogate (c : N) : bool := in_range 55296 56319 c.
Definition is_trail_surrogate (c : N) : bool := in_range 56320 57343 c.

(** Lower-case hexadecimal digit of [d < 16]. *)
Definition hex_digit (d : N) : N := if (d <? 10)%N then (48 + d)%N else (87 + d)%N.

(** UnicodeEscape(C): [\u] and four lower-case hex digits. *)
Definition unicode_escape (c : N) : jsstr :=
  [92; 117; hex_digit (N.div c 4096 mod 16); hex_digit (N.div c 256 mod 16);
   hex_digit (N.div c 16 mod 16); hex_digit (c mod 16)]%N.

(** The table of QuoteJSONString: backspace, tab, line feed, form feed,
    carriage return, quotation mark, reverse solidus. *)
Definition short_escape (c : N) : option N :=
  match c with
  | 8%N => Some 98%N | 9%N => Some 116%N | 10%N => Some 110%N | 12%N => Some 102%N
  | 13%N => Some 114%N | 34%N => Some 34%N | 92%N => Some 92%N
  | _ => None
  end.

(** One code point that is not a surrogate half. *)
Definition quote_unit (c : N) : jsstr :=
  match short_escape c with
  | Some e => [92%N; e]
  | None => if (c <? 32)%N then unicode_escape c else [c]
  end.

(** The body of QuoteJSONString over the code points of the string: a
    surrogate pair is copied, a lone surrogate is escaped. *)
Fixpoint quote_units (s : jsstr) : jsstr :=
  match s with
  | [] => []
  | c :: t =>
      if is_lead_surrogate c then
        match t with
        | d :: t' => if is_trail_surrogate d then c :: d :: quote_units t'
                     else unicode_escape c ++ quote_units t
        | [] => unicode_escape c
        end
      else if is_trail_surrogate c then unicode_escape c ++ quote_units t
      else quote_unit c ++ quote_units t
  end.

Definition quote (s : jsstr) : jsstr := 34%N :: quote_units s ++ [34%N].

Fixpoint join (sep : jsstr) (l : list jsstr) : jsstr :=
  match l with
  | [] => []
  | [x] => x
  | x :: l' => x ++ sep ++ join sep l'
  end.

(** SerializeJSONProperty / SerializeJSONObject: [None] is [undefined],
    whose members an object leaves out. *)
Fixpoint stringify (v : jsval) : option jsstr :=
  match v with
  | JUndefined => None
  | JNull => Some (js "null")
  | JBool true => Some (js "true")
  | JBool false => Some (js "false")
  | JNum z => Some (string_of_Z z)
  | JStr s => Some (quote s)
  | JObj ps =>
      let members := (fix members (ps : list (jsstr * jsval)) : list jsstr :=
        match ps with
        | [] => []
        | (k, x) :: ps' =>
            match stringify x with
            | Some sx => (quote k ++ 58%N :: sx) :: members ps'
            | None => members ps'
            end
        end) ps in
      Some (123%N :: join [44%N] members ++ [125%N])
  end.

(** The member texts of an object, as [stringify] builds them. *)
Fixpoint stringify_members (ps : list (jsstr * jsval)) : list jsstr :=
  match ps with
  | [] => []
  | (k, x) :: ps' =>
      match stringify x with
      | Some sx => (quote k ++ 58%N :: sx) :: stringify_members ps'
      | None => stringify_members ps'
      end
  end.

(** The body axios sends for [axios.post(url, postData)]. *)
Definition request_body (v : form) : option jsstr := stringify (JObj (post_data v)).

(** ** [JSON.parse] *)

Definition is_json_ws (c : N) : bool := N.eqb c 32 || N.eqb c 9 || N.eqb c 10 || N.eqb c 13.

Fixpoint skip_ws (s : jsstr) : jsstr :=
  match s with
  | c :: t => if is_json_ws c then skip_ws t else s
  | [] => []
  end.

Definition hex_value (c : N) : option N :=
  if in_range 48 57 c then Some (c - 48)%N
  else if in_range 97 102 c then Some (c - 87)%N
  else if in_range 65 70 c then Some (c - 55)%N
  else None.

(** The single-character escapes of a JSON string. *)
Definition unescape (e : N) : option N :=
  match e with
  | 34%N => Some 34%N | 92%N => Some 92%N | 47%N => Some 47%N | 98%N => Some 8%N
  | 102%N => Some 12%N | 110%N => Some 10%N | 114%N => Some 13%N | 116%N => Some 9%N
  | _ => None
  end.

Definition cons_fst (c : N) (o : option (jsstr * jsstr)) : option (jsstr * jsstr) :=
  match o with Some (x, r) => Some (c :: x, r) | None => None end.

(** The characters of a string literal after its opening quote, up to and
    without the closing one; a raw control character is a SyntaxError. *)
Fixpoint parse_string_body (s : jsstr) : option (jsstr * jsstr) :=
  match s with
  | [] => None
  | c :: t =>
      if N.eqb c 34 then Some ([], t)
      else if N.eqb c 92 then
        match t with
        | e :: t' =>
            if N.eqb e 117 then
              match t' with
              | h1 :: h2 :: h3 :: h4 :: t'' =>
                  match hex_value h1, hex_value h2, hex_value h3, hex_value h4 with
                  | Some a, Some b, Some c', Some d =>
                      cons_fst (4096 * a + 256 * b + 16 * c' + d)%N (parse_string_body t'')
                  | _, _, _, _ => None
                  end
              | _ => None
              end
            else match unescape e with
                 | Some u => cons_fst u (parse_string_body t')
                 | None => None
                 end
        | [] => None
        end
      else if (c <? 32)%N then None
      else cons_fst c (parse_string_body t)
  end.

Fixpoint digit_run (s : jsstr) : jsstr * jsstr :=
  match s with
  | c :: t => if is_digit c then let '(d, r) := digit_run t in (c :: d, r) else ([], s)
  | [] => ([], [])
  end.

(** An integer literal: [0], or a non-zero digit and more digits, with an
    optional minus sign.  A fraction or exponent part is not modelled:
    the parse fails there. *)
Definition parse_uint_json (s : jsstr) : option (Z * jsstr) :=
  match s with
  | c :: t =>
      if N.eqb c 48 then Some (0%Z, t)
      else if in_range 49 57 c then
        let '(d, r) := digit_run t in
        match parse_nonneg (c :: d) with Some z => Some (z, r) | None => None end
      else None
  | [] => None
  end.

Definition parse_number (s : jsstr) : option (Z * jsstr) :=
  match s with
  | c :: t => if N.eqb c 45 then
                match parse_uint_json t with Some (z, r) => Some (Z.opp z, r) | None => None end
              else parse_uint_json s
  | [] => None
  end.

Definition frac_or_exp (s : jsstr) : bool :=
  match s with c :: _ => N.eqb c 46 || N.eqb c 101 || N.eqb c 69 | [] => false end.

(** [expect c s]: skip white space and read the character [c]. *)
Definition expect (c : N) (s : jsstr) : option jsstr :=
  match skip_ws s with
  | d :: r => if N.eqb d c then Some r else None
  | [] => None
  end.

Fixpoint strip_prefix (p s : jsstr) : option jsstr :=
  match p, s with
  | [], _ => Some s
  | c :: p', d :: s' => if N.eqb c d then strip_prefix p' s' else None
  | _ :: _, [] => None
  end.

(** The literal names [null], [true], [false]. *)
Definition parse_literal (w : jsstr) (v : jsval) (s : jsstr) : option (jsval * jsstr) :=
  match strip_prefix w s with Some r => Some (v, r) | None => None end.

(** Values and object members, with [fuel] bounding the nesting of
    calls; each call consumes input, so the length of the text is enough
    (see [json_parse]).  A repeated key keeps its first place and takes
    the last value (CreateDataProperty). *)
Fixpoint parse_value (fuel : nat) (s : jsstr) {struct fuel} : option (jsval * jsstr) :=
  match fuel with
  | 0 => None
  | S f =>
    match skip_ws s with
    | [] => None
    | c :: t =>
      if N.eqb c 110 then parse_literal (js "null") JNull (c :: t)
      else if N.eqb c 116 then parse_literal (js "true") (JBool true) (c :: t)
      else if N.eqb c 102 then parse_literal (js "false") (JBool false) (c :: t)
      else if N.eqb c 34 then
        match parse_string_body t with Some (x, r) => Some (JStr x, r) | None => None end
      else if N.eqb c 123 then
        match expect 125 t with
        | Some r => Some (JObj [], r)
        | None => parse_members f [] t
        end
      else match parse_number (c :: t) with
           | Some (z, r) => if frac_or_exp r then None else Some (JNum z, r)
           | None => None
           end
    end
  end
with parse_members (fuel : nat) (acc : jsobj) (s : jsstr) {struct fuel} : option (jsval * jsstr) :=
  match fuel with
  | 0 => None
  | S f =>
    match expect 34 s with
    | None => None
    | Some t =>
      match parse_string_body t with
      | None => None
      | Some (k, r1) =>
        match expect 58 r1 with
        | None => None
        | Some r2 =>
          match parse_value f r2 with
          | None => None
          | Some (x, r3) =>
            match expect 44 r3 with
            | Some r4 => parse_members f (obj_set acc k x) r4
            | None => match expect 125 r3 with
                      | Some r4 => Some (JObj (obj_set acc k x), r4)
                      | None => None
                      end
            end
          end
        end
      end
    end
  end.

(** JSON.parse(text): one value, surrounded only by white space. *)
Definition json_parse (s : jsstr) : option jsval :=
  match parse_value (S (length s)) s with
  | Some (v, r) => match skip_ws r with [] => Some v | _ => None end
  | None => None
  end.

(** ** Values that survive the round trip *)

Fixpoint keys_distinct (ks : list jsstr) : bool :=
  match ks with
  | [] => true
  | k :: ks' => negb (existsb (js_eqb k) ks') && keys_distinct ks'
  end.

(** No [undefined] anywhere, strings of code units, keys of an object
    distinct. *)
Fixpoint json_ok (v : jsval) : bool :=
  match v with
  | JUndefined => false
  | JNull | JBool _ | JNum _ => true
  | JStr s => code_units_ok s
  | JObj ps =>
      keys_distinct (map fst ps) && forallb code_units_ok (map fst ps) &&
      (fix all (ps : list (jsstr * jsval)) : bool :=
         match ps with [] => true | (_, x) :: ps' => json_ok x && all ps' end) ps
  end.

(** The number of values and members of a value: a bound on the nesting
    of [parse_value] and [parse_members] calls that read its text. *)
Fixpoint jsize (v : jsval) : nat :=
  match v with
  | JObj ps =>
      S ((fix sz (ps : list (jsstr * jsval)) : nat :=
            match ps with [] => 0 | (_, x) :: ps' => S (jsize x + sz ps') end) ps)
  | _ => 1
  end.

Fixpoint members_ok (ps : list (jsstr * jsval)) : bool :=
  match ps with [] => true | (_, x) :: ps' => json_ok x && members_ok ps' end.

Fixpoint members_size (ps : list (jsstr * jsval)) : nat :=
  match ps with [] => 0 | (_, x) :: ps' => S (jsize x + members_size ps') end.

(** A text after a number that does not extend it. *)
Definition stop_ok (r : jsstr) : bool :=
  match r with c :: _ => negb (is_digit c) && negb (frac_or_exp r) | [] => true end.

(** The text of [v], followed by any text that does not extend it, is
    read back as [v] when the fuel covers [v]. *)
Definition parses_back (v : jsval) : Prop :=
  json_ok v = true -> forall t f r, stringify v = Some t -> jsize v <= f ->
  stop_ok r = true -> parse_value f (t ++ r) = Some (v, r).

(** ** String literals *)

(** A hex digit reads back as the number it writes. *)
Lemma hex_value_digit d : (d < 16)%N -> hex_value (hex_digit d) = Some d.
Proof.
  intros Hd.
  assert (d = 0 \/ d = 1 \/ d = 2 \/ d = 3 \/ d = 4 \/ d = 5 \/ d = 6 \/ d = 7 \/
          d = 8 \/ d = 9 \/ d = 10 \/ d = 11 \/ d = 12 \/ d = 13 \/ d = 14 \/ d = 15)%N
    as Hcases by lia.
  repeat destruct Hcases as [->|Hcases]; try reflexivity; subst; reflexivity.
Qed.

(** The four hex digits of a code unit give it back. *)
Lemma hex_digits_sum c : (c < 65536)%N ->
  (4096 * (c / 4096 mod 16) + 256 * (c / 256 mod 16) + 16 * (c / 16 mod 16) + c mod 16 = c)%N.
Proof.
  intros Hc.
  assert (E1 : (c / 256 = c / 16 / 16)%N) by (rewrite N.Div0.div_div; reflexivity).
  assert (E2 : (c / 4096 = c / 256 / 16)%N) by (rewrite N.Div0.div_div; reflexivity).
  pose proof (N.Div0.div_mod c 16) as D1.
  pose proof (N.Div0.div_mod (c / 16) 16) as D2.
  pose proof (N.Div0.div_mod (c / 256) 16) as D3.
  rewrite <- E1 in D2. rewrite <- E2 in D3.
  assert (H4 : (c / 4096 < 16)%N) by (apply N.Div0.div_lt_upper_bound; lia).
  rewrite (N.mod_small (c / 4096)) by exact H4. lia.
Qed.

Lemma unicode_escape_parse c t : (c < 65536)%N ->
  parse_string_body (unicode_escape c ++ t) = cons_fst c (parse_string_body t).
Proof.
  intros Hc. unfold unicode_escape. cbn -[hex_value hex_digit N.div N.modulo N.mul N.add].
  rewrite !hex_value_digit by (apply N.mod_lt; discriminate).
  now rewrite hex_digits_sum.
Qed.

Lemma short_escape_cases c e : short_escape c = Some e ->
  In (c, e) [(8, 98); (9, 116); (10, 110); (12, 102); (13, 114); (34, 34); (92, 92)]%N.
Proof.
  intros H. destruct c as [|p]; [discriminate|].
  repeat (destruct p as [p|p|]; try discriminate H); injection H as <-; in_list.
Qed.

(** A code unit that the parser copies as it is. *)
Lemma parse_plain c t : (32 <= c)%N -> c <> 34%N -> c <> 92%N ->
  parse_string_body (c :: t) = cons_fst c (parse_string_body t).
Proof.
  intros H1 H2 H3. simpl.
  rewrite (proj2 (N.eqb_neq _ _) H2), (proj2 (N.eqb_neq _ _) H3).
  replace (c <? 32)%N with false by (symmetry; apply N.ltb_ge; lia). reflexivity.
Qed.

Lemma quote_unit_parse c t : (c < 65536)%N ->
  parse_string_body (quote_unit c ++ t) = cons_fst c (parse_string_body t).
Proof.
  intros Hc. unfold quote_unit. destruct (short_escape c) as [e|] eqn:E.
  - apply short_escape_cases in E.
    repeat (destruct E as [E|E]; [injection E as <- <-; reflexivity|]). destruct E.
  - destruct (c <? 32)%N eqn:L; [now apply unicode_escape_parse|].
    apply parse_plain; [now apply N.ltb_ge | intros -> | intros ->]; discriminate.
Qed.

Lemma surrogate_plain c : is_lead_surrogate c || is_trail_surrogate c = true ->
  (32 <= c)%N /\ c <> 34%N /\ c <> 92%N.
Proof.
  unfold is_lead_surrogate, is_trail_surrogate, in_range.
  rewrite orb_true_iff, !andb_true_iff, !N.leb_le. lia.
Qed.

Lemma code_units_ok_cons c s :
  code_units_ok (c :: s) = true <-> (c < 65536)%N /\ code_units_ok s = true.
Proof. unfold code_units_ok. simpl. now rewrite andb_true_iff, N.ltb_lt. Qed.

(** QuoteJSONString is undone by the string grammar of JSON.parse. *)
Lemma quote_units_parse s t : code_units_ok s = true ->
  parse_string_body (quote_units s ++ 34%N :: t) = Some (s, t).
Proof.
  remember (length s) as n eqn:Hn. revert s Hn.
  induction n as [n IH] using lt_wf_ind. intros [|c s] Hn Hok; [reflexivity|].
  apply code_units_ok_cons in Hok as [Hc Hok]. simpl in Hn. cbn [quote_units].
  destruct (is_lead_surrogate c) eqn:L.
  - destruct s as [|d s'].
    + now rewrite unicode_escape_parse.
    + apply code_units_ok_cons in Hok as [Hd Hok'].
      destruct (is_trail_surrogate d) eqn:T.
      * destruct (surrogate_plain c) as (? & ? & ?); [now rewrite L|].
        destruct (surrogate_plain d) as (? & ? & ?); [now rewrite T, orb_true_r|].
        simpl app. rewrite !parse_plain by assumption.
        rewrite (IH (length s')) by (simpl in Hn; (lia || reflexivity || assumption)).
        reflexivity.
      * rewrite <- app_assoc, unicode_escape_parse by assumption.
        rewrite (IH (length (d :: s'))); [reflexivity | lia | reflexivity |].
        now apply code_units_ok_cons.
  - destruct (is_trail_surrogate c) eqn:T; rewrite <- app_assoc;
      [rewrite unicode_escape_parse by assumption | rewrite quote_unit_parse by assumption];
      rewrite (IH (length s)); reflexivity || lia || assumption.
Qed.

(** ** Integer literals *)

(** [Number::toString] of a positive integer starts with a non-zero digit. *)
Lemma uint_cus_head p : exists c t, uint_cus (Pos.to_uint p) = c :: t /\ (49 <= c <= 57)%N.
Proof.
  pose proof (DecimalPos.Unsigned.to_of (Pos.to_uint p)) as H.
  rewrite DecimalPos.Unsigned.of_to in H. change (N.to_uint (N.pos p)) with (Pos.to_uint p) in H.
  pose proof (DecimalPos.Unsigned.to_uint_nonnil p). pose proof (DecimalPos.Unsigned.to_uint_nonzero p).
  destruct (Pos.to_uint p) as [|u|u|u|u|u|u|u|u|u|u]; try contradiction;
    try (eexists _, _; split; [reflexivity | lia]).
  rewrite DecimalFacts.unorm_D0 in H. destruct (Decimal.nzhead u) eqn:E;
    [apply DecimalFacts.unorm_0 in E; rewrite E in H; congruence
    |exfalso; eapply DecimalFacts.nzhead_nonzero; exact E
    |..];
    (rewrite DecimalFacts.unorm_nzhead in H by (rewrite E; discriminate)); congruence.
Qed.

Lemma digit_run_app d r : forallb is_digit d = true ->
  match r with c :: _ => is_digit c = false | [] => True end ->
  digit_run (d ++ r) = (d, r).
Proof.
  intros Hd Hr. induction d as [|c d IH]; simpl in *.
  - destruct r as [|c r]; [reflexivity|]. simpl. now rewrite Hr.
  - apply andb_true_iff in Hd as [Hc Hd]. now rewrite Hc, IH.
Qed.

Lemma parse_uint_json_pos p r : stop_ok r = true ->
  parse_uint_json (uint_cus (Pos.to_uint p) ++ r) = Some (Z.pos p, r).
Proof.
  intros Hr. pose proof (parse_string_of_Z (Z.pos p) ltac:(lia)) as Hp.
  pose proof (proj1 (string_of_Z_digits (Z.pos p) ltac:(lia))) as Hd.
  unfold string_of_Z in Hp, Hd. simpl in Hp, Hd.
  destruct (uint_cus_head p) as (c & t & E & Hc). rewrite E in Hp, Hd |- *.
  simpl in Hd. apply andb_true_iff in Hd as [_ Hd]. simpl.
  replace (c =? 48)%N with false by (symmetry; apply N.eqb_neq; lia).
  replace (in_range 49 57 c) with true
    by (symmetry; unfold in_range; rewrite andb_true_iff, !N.leb_le; lia).
  rewrite digit_run_app by (exact Hd || (destruct r as [|c' r]; [exact I|];
    simpl in Hr; apply andb_true_iff in Hr as [Hr _]; now apply negb_true_iff)).
  simpl in Hp. now rewrite Hp.
Qed.

(** [String(z)] is read back as [z] by the number grammar of JSON.parse. *)
Lemma parse_number_string_of_Z z r : stop_ok r = true ->
  parse_number (string_of_Z z ++ r) = Some (z, r) /\ frac_or_exp r = false.
Proof.
  intros Hr. split.
  - unfold string_of_Z. destruct z as [|p|p]; simpl Z.to_int; cbv iota.
    + reflexivity.
    + destruct (uint_cus_head p) as (c & t & E & Hc). rewrite <- (parse_uint_json_pos p r Hr).
      unfold parse_number. rewrite E. simpl app. cbv beta iota.
      replace (c =? 45)%N with false by (symmetry; apply N.eqb_neq; lia). reflexivity.
    + simpl. now rewrite parse_uint_json_pos.
  - destruct r as [|c r]; [reflexivity|]. simpl in Hr.
    apply andb_true_iff in Hr as [_ Hr]. now apply negb_true_iff.
Qed.

(** ** Objects and values *)

Lemma stringify_obj ps :
  stringify (JObj ps) = Some (123%N :: join [44%N] (stringify_members ps) ++ [125%N]).
Proof. reflexivity. Qed.

Lemma json_ok_obj ps : json_ok (JObj ps) =
  keys_distinct (map fst ps) && forallb code_units_ok (map fst ps) && members_ok ps.
Proof. reflexivity. Qed.

Lemma jsize_obj ps : jsize (JObj ps) = S (members_size ps).
Proof. reflexivity. Qed.

Lemma stringify_defined v : json_ok v = true -> exists t, stringify v = Some t.
Proof.
  destruct v as [| |[]| | |ps]; try discriminate; intros _; eexists; reflexivity.
Qed.

Lemma join_cons sep m ms :
  join sep (m :: ms) = m ++ match ms with [] => [] | _ => sep ++ join sep ms end.
Proof. destruct ms; simpl; [now rewrite List.app_nil_r | reflexivity]. Qed.

Lemma join_length sep m ms : length m + length (join sep ms) <= length (join sep (m :: ms)).
Proof. rewrite join_cons. destruct ms; simpl; rewrite ?length_app; simpl; lia. Qed.

Lemma string_of_Z_nonempty z : string_of_Z z <> [].
Proof.
  destruct (Z.le_gt_cases 0 z) as [H|H]; [apply (string_of_Z_digits z H)|].
  unfold string_of_Z. destruct z; simpl; discriminate || lia.
Qed.

(** The fuel [json_parse] gives is enough: a value has no more members
    and values than its text has code units. *)
Lemma jsize_le_length v : json_ok v = true -> forall t, stringify v = Some t -> jsize v <= length t.
Proof.
  induction v as [| |b|z|s|ps IH] using jsval_ind_members; intros Hok t Ht; try discriminate.
  - injection Ht as <-. simpl. lia.
  - destruct b; injection Ht as <-; simpl; lia.
  - injection Ht as <-. pose proof (string_of_Z_nonempty z).
    destruct (string_of_Z z); [congruence | simpl; lia].
  - injection Ht as <-. unfold quote. simpl. lia.
  - rewrite stringify_obj in Ht. injection Ht as <-. rewrite json_ok_obj in Hok.
    apply andb_true_iff in Hok as [_ Hok]. rewrite jsize_obj. simpl. rewrite length_app. simpl.
    enough (members_size ps <= length (join [44%N] (stringify_members ps))) by lia.
    clear - IH Hok. induction ps as [|[k x] ps IHps]; cbn [members_size stringify_members members_ok] in *; [lia|].
    apply Forall_cons_iff in IH as [IHx IH]. apply andb_true_iff in Hok as [Hx Hok].
    destruct (stringify_defined x Hx) as [sx Hsx]. rewrite Hsx.
    specialize (IHx Hx sx Hsx). specialize (IHps IH Hok).
    pose proof (join_length [44%N] (quote k ++ 58%N :: sx) (stringify_members ps)).
    assert (length (quote k ++ 58%N :: sx) = length (quote_units k) + 3 + length sx)
      by (unfold quote; simpl; rewrite !length_app; simpl; lia).
    simpl in IHx. lia.
Qed.

Lemma string_of_Z_head z : exists c t, string_of_Z z = c :: t /\ (c = 45%N \/ (48 <= c <= 57)%N).
Proof.
  unfold string_of_Z. destruct z as [|p|p]; simpl.
  - eexists _, _. split; [reflexivity | lia].
  - destruct (uint_cus_head p) as (c & t & -> & H). eexists _, _. split; [reflexivity | lia].
  - eexists _, _. split; [reflexivity | lia].
Qed.

Lemma parse_value_number f z r : stop_ok r = true ->
  parse_value (S f) (string_of_Z z ++ r) = Some (JNum z, r).
Proof.
  intros Hr. destruct (parse_number_string_of_Z z r Hr) as [Hp Hf].
  destruct (string_of_Z_head z) as (c & t & E & Hc). rewrite E in Hp |- *.
  transitivity (match parse_number ((c :: t) ++ r) with
                | Some (z, r) => if frac_or_exp r then None else Some (JNum z, r)
                | None => None end); [|now rewrite Hp, Hf].
  assert (c = 45%N \/ c = 48%N \/ c = 49%N \/ c = 50%N \/ c = 51%N \/ c = 52%N \/
          c = 53%N \/ c = 54%N \/ c = 55%N \/ c = 56%N \/ c = 57%N) as Hcs by lia.
  repeat destruct Hcs as [->|Hcs]; try reflexivity; subst; reflexivity.
Qed.

Lemma parse_value_string f s r : code_units_ok s = true ->
  parse_value (S f) (quote s ++ r) = Some (JStr s, r).
Proof.
  intros Hs. unfold quote. rewrite <- app_comm_cons, <- app_assoc. simpl.
  now rewrite quote_units_parse.
Qed.

Lemma stringify_members_nil ps : members_ok ps = true -> stringify_members ps = [] -> ps = [].
Proof.
  destruct ps as [|[k x] ps]; [reflexivity|]. simpl. intros Hok.
  apply andb_true_iff in Hok as [Hx _]. destruct (stringify_defined x Hx) as [sx ->]. discriminate.
Qed.

Lemma keys_distinct_cons k ks :
  keys_distinct (k :: ks) = true <-> ~ In k ks /\ keys_distinct ks = true.
Proof.
  simpl. rewrite andb_true_iff, negb_true_iff, <- not_true_iff_false, existsb_exists.
  split; intros [H1 H2]; split; try assumption.
  - intros Hin. apply H1. exists k. split; [exact Hin | apply js_eqb_refl].
  - intros (k' & Hin & E). apply js_eqb_eq in E. subst. contradiction.
Qed.

(** The members of an object, read into [acc] whose keys they do not
    share: each key is new, so [obj_set] appends it. *)
Lemma parse_members_stringify ps : Forall (fun p => parses_back (snd p)) ps ->
  forall acc f r, ps <> [] ->
  keys_distinct (map fst ps) = true -> forallb code_units_ok (map fst ps) = true ->
  members_ok ps = true -> (forall k, In k (map fst ps) -> ~ In k (map fst acc)) ->
  members_size ps <= f ->
  parse_members f acc (join [44%N] (stringify_members ps) ++ 125%N :: r) = Some (JObj (acc ++ ps), r).
Proof.
  induction ps as [|[k x] ps IHps]; intros IH acc f r Hne Hd Hu Hok Hfresh Hf; [congruence|].
  apply Forall_cons_iff in IH as [IHx IH]. simpl in IHx, Hu, Hok, Hf.
  cbn [map fst] in Hd. apply keys_distinct_cons in Hd as [Hk Hd].
  apply andb_true_iff in Hu as [Hku Hu]. apply andb_true_iff in Hok as [Hx Hok].
  destruct (stringify_defined x Hx) as [sx Hsx].
  destruct f as [|f]; [lia|]. cbn [stringify_members]. rewrite Hsx, join_cons.
  set (rest := match stringify_members ps with [] => [] | _ => [44%N] ++ join [44%N] (stringify_members ps) end ++ 125%N :: r).
  replace (((quote k ++ 58%N :: sx) ++ _) ++ 125%N :: r) with (34%N :: quote_units k ++ 34%N :: 58%N :: sx ++ rest)
    by (unfold quote, rest; simpl; rewrite <- !app_assoc; reflexivity).
  simpl. rewrite quote_units_parse by assumption. simpl.
  assert (Hacc : obj_set acc k x = acc ++ [(k, x)]) by (apply obj_set_fresh, Hfresh; now left).
  destruct (stringify_members ps) as [|m ms] eqn:Ems; subst rest.
  - apply stringify_members_nil in Ems; [subst ps | exact Hok].
    rewrite (IHx Hx sx f ([] ++ 125%N :: r) Hsx ltac:(lia) eq_refl). simpl. now rewrite Hacc.
  - rewrite (IHx Hx sx f (([44%N] ++ join [44%N] (m :: ms)) ++ 125%N :: r) Hsx ltac:(lia) eq_refl).
    cbn -[join]. rewrite Hacc.
    rewrite IHps; [now rewrite <- app_assoc | exact IH | intros ->; discriminate
                  | exact Hd | exact Hu | exact Hok | | lia].
    intros k' Hin. rewrite map_app, in_app_iff. simpl. intros [Hin' | [<- | []]].
    + apply (Hfresh k'); [now right | exact Hin'].
    + contradiction.
Qed.

Lemma parse_stringify v : parses_back v.
Proof.
  induction v as [| |b|z|s|ps IH] using jsval_ind_members;
    intros Hok t f r Ht Hf Hr; try discriminate;
    (destruct f as [|f]; [simpl in Hf; lia|]).
  - injection Ht as <-. reflexivity.
  - destruct b; injection Ht as <-; reflexivity.
  - injection Ht as <-. now apply parse_value_number.
  - injection Ht as <-. now apply parse_value_string.
  - rewrite stringify_obj in Ht. injection Ht as <-. rewrite jsize_obj in Hf.
    rewrite json_ok_obj, !andb_true_iff in Hok. destruct Hok as [[Hd Hu] Hm].
    destruct ps as [|[k x] ps']; [reflexivity|].
    assert (HJ : exists z, join [44%N] (stringify_members ((k, x) :: ps')) ++ 125%N :: r = 34%N :: z).
    { simpl in Hm. apply andb_true_iff in Hm as [Hx _].
      destruct (stringify_defined x Hx) as [sx Hsx]. cbn [stringify_members].
      rewrite Hsx, join_cons. eexists. reflexivity. }
    destruct HJ as [z HJ].
    transitivity (parse_members f [] (join [44%N] (stringify_members ((k, x) :: ps')) ++ 125%N :: r)).
    + rewrite <- app_comm_cons, <- app_assoc. simpl app at 2. rewrite HJ. reflexivity.
    + apply parse_members_stringify; try assumption || discriminate || lia.
      intros ? _ [].
Qed.

(** JSON.parse undoes JSON.stringify: the text of a value without
    [undefined], with distinct keys and strings of code units, is parsed
    back to the same value (integers, strings with every escape, nested
    objects in their key order). *)
Lemma json_roundtrip v t :
  json_ok v = true -> stringify v = Some t -> json_parse t = Some v.
Proof.
  intros Hok Ht. unfold json_parse.
  pose proof (jsize_le_length v Hok t Ht) as Hs.
  pose proof (parse_stringify v Hok t (S (length t)) [] Ht ltac:(lia) eq_refl) as Hp.
  rewrite List.app_nil_r in Hp. now rewrite Hp.
Qed.

Lemma hex_value_bound c a : hex_value c = Some a -> (a < 16)%N.
Proof.
  unfold hex_value, in_range.
  destruct (48 <=? c)%N eqn:E1, (c <=? 57)%N eqn:E2; simpl;
  destruct (97 <=? c)%N eqn:E3, (c <=? 102)%N eqn:E4; simpl;
  destruct (65 <=? c)%N eqn:E5, (c <=? 70)%N eqn:E6; simpl;
  intros H; try discriminate; injection H as <-;
  rewrite ?N.leb_le, ?N.leb_gt in *; lia.
Qed.

Lemma unescape_bound e u : unescape e = Some u -> (u < 128)%N.
Proof.
  intros H. destruct e as [|p]; [discriminate|].
  repeat (destruct p as [p|p|]; try discriminate H); injection H as <-; lia.
Qed.

Lemma code_units_ok_suffix r s : is_suffix r s -> code_units_ok s = true -> code_units_ok r = true.
Proof. intros [w ->]. rewrite code_units_ok_app. now intros [_ ?]%andb_true_iff. Qed.

Lemma skip_ws_suffix s : is_suffix (skip_ws s) s.
Proof.
  induction s as [|c s IH]; simpl; [apply is_suffix_refl|].
  destruct (is_json_ws c); auto with jsdb.
Qed.

Lemma cons_fst_inv c o x r : cons_fst c o = Some (x, r) ->
  exists x', o = Some (x', r) /\ x = c :: x'.
Proof. destruct o as [[x' r']|]; simpl; intros H; [injection H as <- <-; eauto | discriminate]. Qed.

(** The string grammar reads code units out of code units, and leaves a
    suffix of its input. *)
Lemma parse_string_body_ok s x r : code_units_ok s = true ->
  parse_string_body s = Some (x, r) -> code_units_ok x = true /\ is_suffix r s.
Proof.
  remember (length s) as n eqn:Hn. revert s x r Hn.
  induction n as [n IH] using lt_wf_ind. intros [|c t] x r Hn Hs H; [discriminate|].
  apply code_units_ok_cons in Hs as [Hc Ht]. simpl in Hn. cbn [parse_string_body] in H.
  destruct (c =? 34)%N.
  { injection H as <- <-. split; [reflexivity | auto with jsdb]. }
  destruct (c =? 92)%N.
  - destruct t as [|e t']; [discriminate|]. apply code_units_ok_cons in Ht as [_ Ht'].
    destruct (e =? 117)%N.
    + destruct t' as [|h1 [|h2 [|h3 [|h4 t'']]]]; try discriminate.
      do 4 (apply code_units_ok_cons in Ht' as [_ Ht']).
      destruct (hex_value h1) as [a|] eqn:E1, (hex_value h2) as [b|] eqn:E2,
               (hex_value h3) as [c'|] eqn:E3, (hex_value h4) as [d|] eqn:E4; try discriminate.
      apply hex_value_bound in E1, E2, E3, E4.
      apply cons_fst_inv in H as (x' & H & ->).
      destruct (IH (length t'') ltac:(simpl in Hn; lia) t'' x' r eq_refl Ht' H) as [Hx Hr].
      split; [apply code_units_ok_cons; split; [lia | exact Hx] | do 6 apply is_suffix_cons; exact Hr].
    + destruct (unescape e) as [u|] eqn:Eu; [|discriminate]. apply unescape_bound in Eu.
      apply cons_fst_inv in H as (x' & H & ->).
      destruct (IH (length t') ltac:(simpl in Hn; lia) t' x' r eq_refl Ht' H) as [Hx Hr].
      split; [apply code_units_ok_cons; split; [lia | exact Hx] | do 2 apply is_suffix_cons; exact Hr].
  - destruct (c <? 32)%N; [discriminate|].
    apply cons_fst_inv in H as (x' & H & ->).
    destruct (IH (length t) ltac:(lia) t x' r eq_refl Ht H) as [Hx Hr].
    split; [apply code_units_ok_cons; split; [exact Hc | exact Hx] | auto with jsdb].
Qed.

(** ** What JSON.parse returns *)

Lemma expect_suffix c s r : expect c s = Some r -> is_suffix r s.
Proof.
  unfold expect. pose proof (skip_ws_suffix s) as Hw.
  destruct (skip_ws s) as [|d t]; [discriminate|].
  destruct (d =? c)%N; [|discriminate]. intros H; injection H as <-.
  eauto with jsdb.
Qed.

Lemma strip_prefix_suffix p s r : strip_prefix p s = Some r -> is_suffix r s.
Proof.
  revert s. induction p as [|c p IH]; intros [|d s] H; simpl in H; try discriminate.
  - injection H as <-. apply is_suffix_refl.
  - injection H as <-. apply is_suffix_refl.
  - destruct (c =? d)%N; [|discriminate]. auto with jsdb.
Qed.

Lemma parse_literal_inv w v0 s v r : parse_literal w v0 s = Some (v, r) -> v = v0 /\ is_suffix r s.
Proof.
  unfold parse_literal. destruct (strip_prefix w s) eqn:E; [|discriminate].
  intros H; injection H as <- <-. split; [reflexivity | eapply strip_prefix_suffix; eauto].
Qed.

Lemma digit_run_suffix s : is_suffix (snd (digit_run s)) s.
Proof.
  induction s as [|c s IH]; simpl; [apply is_suffix_refl|].
  destruct (is_digit c); [destruct (digit_run s); simpl in *; auto with jsdb | apply is_suffix_refl].
Qed.

Lemma parse_uint_json_suffix s z r : parse_uint_json s = Some (z, r) -> is_suffix r s.
Proof.
  unfold parse_uint_json. destruct s as [|c t]; [discriminate|].
  destruct (c =? 48)%N; [intros H; injection H as _ <-; auto with jsdb|].
  destruct (in_range 49 57 c); [|discriminate].
  pose proof (digit_run_suffix t) as Hd. destruct (digit_run t) as [d r'].
  destruct (parse_nonneg (c :: d)); [|discriminate]. intros H; injection H as _ <-.
  simpl in Hd. auto with jsdb.
Qed.

Lemma parse_number_suffix s z r : parse_number s = Some (z, r) -> is_suffix r s.
Proof.
  unfold parse_number. destruct s as [|c t]; [discriminate|].
  destruct (c =? 45)%N; [|apply parse_uint_json_suffix].
  destruct (parse_uint_json t) as [[z' r']|] eqn:E; [|discriminate].
  intros H; injection H as _ <-. apply parse_uint_json_suffix in E. auto with jsdb.
Qed.

(** [CreateDataProperty] keeps an object well formed. *)
Lemma json_ok_obj_set acc k x : json_ok (JObj acc) = true -> json_ok x = true ->
  code_units_ok k = true -> json_ok (JObj (obj_set acc k x)) = true.
Proof.
  rewrite !json_ok_obj, !andb_true_iff. intros [[Hd Hu] Hm] Hx Hk.
  induction acc as [|[k0 y] acc IH]; simpl in *.
  - now rewrite Hk, Hx.
  - apply keys_distinct_cons in Hd as [Hn Hd].
    apply andb_true_iff in Hu as [Hu0 Hu]. apply andb_true_iff in Hm as [Hy Hm].
    destruct (js_eqb k k0) eqn:E; simpl.
    + rewrite Hu0, Hu, Hx, Hm. split; [split|]; try reflexivity.
      change (keys_distinct (k0 :: map fst acc) = true). now apply keys_distinct_cons.
    + destruct (IH Hd Hu Hm) as [[Hd' Hu'] Hm']. rewrite Hu0, Hu', Hy, Hm'.
      split; [split|]; try reflexivity.
      change (keys_distinct (k0 :: map fst (obj_set acc k x)) = true).
      apply keys_distinct_cons. split; [|exact Hd'].
      rewrite obj_set_keys. intros [-> | Hin]; [|contradiction].
      rewrite js_eqb_refl in E. discriminate.
Qed.


(** Whatever text it reads, JSON.parse returns a value with no
    [undefined], distinct keys and strings of code units, and leaves a
    suffix of its input. *)
Lemma parse_ok f :
  (forall s v r, code_units_ok s = true -> parse_value f s = Some (v, r) ->
     json_ok v = true /\ is_suffix r s) /\
  (forall acc s v r, json_ok (JObj acc) = true -> code_units_ok s = true ->
     parse_members f acc s = Some (v, r) -> json_ok v = true /\ is_suffix r s).
Proof.
  induction f as [|f [IHv IHm]]; [split; intros; discriminate|]. split.
  - intros s v r Hs H. cbn [parse_value] in H. pose proof (skip_ws_suffix s) as Hw.
    destruct (skip_ws s) as [|c t]; [discriminate|].
    assert (Ht : is_suffix t s) by eauto with jsdb.
    pose proof (code_units_ok_suffix _ _ Ht Hs) as Htok.
    destruct (c =? 110)%N; [apply parse_literal_inv in H as [-> ?]; eauto with jsdb|].
    destruct (c =? 116)%N; [apply parse_literal_inv in H as [-> ?]; eauto with jsdb|].
    destruct (c =? 102)%N; [apply parse_literal_inv in H as [-> ?]; eauto with jsdb|].
    destruct (c =? 34)%N.
    { destruct (parse_string_body t) as [[x r']|] eqn:E; [|discriminate].
      injection H as <- <-. apply parse_string_body_ok in E as [Hx Hr]; [|exact Htok].
      eauto with jsdb. }
    destruct (c =? 123)%N.
    { destruct (expect 125 t) eqn:E.
      - injection H as <- <-. apply expect_suffix in E. eauto with jsdb.
      - apply IHm in H as [Hv Hr]; [eauto with jsdb | reflexivity | exact Htok]. }
    destruct (parse_number (c :: t)) as [[z r']|] eqn:E; [|discriminate].
    destruct (frac_or_exp r'); [discriminate|]. injection H as <- <-.
    apply parse_number_suffix in E. eauto with jsdb.
  - intros acc s v r Hacc Hs H. cbn [parse_members] in H.
    destruct (expect 34 s) as [t|] eqn:E1; [|discriminate]. apply expect_suffix in E1.
    destruct (parse_string_body t) as [[k r1]|] eqn:E2; [|discriminate].
    apply parse_string_body_ok in E2 as [Hk Hr1]; [|eapply code_units_ok_suffix; eauto].
    assert (H1 : is_suffix r1 s) by eauto with jsdb.
    destruct (expect 58 r1) as [r2|] eqn:E3; [|discriminate]. apply expect_suffix in E3.
    assert (H2 : is_suffix r2 s) by eauto with jsdb.
    destruct (parse_value f r2) as [[x r3]|] eqn:E4; [|discriminate].
    apply IHv in E4 as [Hx Hr3]; [|eapply code_units_ok_suffix; eauto].
    assert (H3 : is_suffix r3 s) by eauto with jsdb.
    pose proof (json_ok_obj_set acc k x Hacc Hx Hk) as Hacc'.
    destruct (expect 44 r3) as [r4|] eqn:E5.
    + apply expect_suffix in E5. assert (H4 : is_suffix r4 s) by eauto with jsdb.
      apply IHm in H as [Hv Hr]; [eauto with jsdb | exact Hacc' | eapply code_units_ok_suffix; eauto].
    + destruct (expect 125 r3) as [r4|] eqn:E6; [|discriminate]. apply expect_suffix in E6.
      injection H as <- <-. eauto with jsdb.
Qed.

(** What JSON.parse returns is well typed: for a text of code units,
    the value has no [undefined], the keys of every object are distinct
    (a repeated key overwrites the earlier member) and every string is made
    of code units. *)
Lemma json_parse_typed s v : code_units_ok s = true -> json_parse s = Some v -> json_ok v = true.
Proof.
  intros Hs. unfold json_parse.
  destruct (parse_value (S (length s)) s) as [[v' r]|] eqn:E; [|discriminate].
  destruct (skip_ws r); [|discriminate]. intros H; injection H as <-.
  exact (proj1 (proj1 (parse_ok _) s v' r Hs E)).
Qed.

(** ** Examples and witnesses *)

Example json_roundtrip_ex :
  json_parse (123 :: js "-12" ++ [125])%N = None /\
  exists t, stringify (JObj [(js "name", JStr [65; 10; 34; 55357; 56832; 56320]%N);
                             (js "n", JNum (-120)); (js "o", JObj [(js "b", JBool true); (js "z", JNull)])]) = Some t /\
  json_parse t = Some (JObj [(js "name", JStr [65; 10; 34; 55357; 56832; 56320]%N);
                             (js "n", JNum (-120)); (js "o", JObj [(js "b", JBool true); (js "z", JNull)])]).
Proof.
  split; [reflexivity|]. eexists. split; [reflexivity|].
  apply json_roundtrip; reflexivity.
Qed.

Example json_parse_typed_ex :
  json_parse [123; 34; 97; 34; 58; 49; 44; 34; 97; 34; 58; 50; 125]%N = Some (JObj [([97%N], JNum 2)]) /\
  json_ok (JObj [([97%N], JNum 2)]) = true.
Proof.
  split; [reflexivity|].
  apply (json_parse_typed [123; 34; 97; 34; 58; 49; 44; 34; 97; 34; 58; 50; 125]%N); reflexivity.
Qed.

