(* ===== verification/Submission.v ===== *)
(** The submission workflow of [RegistrationForm]: [handleSubmit(onSubmit)]
    on the submit event, the [axios.post] request left in flight at the
    [await], and the continuation that runs when its promise settles.
    Requests are not serialized: several may be in flight, and they may
    settle in any order. *)
From Stdlib Require Import List Bool Arith Lia ZArith.
From S2P Require Import Prelude JsString Form Validation DateOfBirth JsValue Payload.
Import ListNotations.

(** ** State *)

(** [alertInfo]: [{ message, type }]. *)
Record alert_info := mk_alert { alert_message : jsval; alert_type : jsstr }.

Definition no_alert : alert_info := mk_alert (JStr []) [].

Record state := mk_state {
  values : form;                      (* react-hook-form's field values *)
  errors : list (field * jsstr);      (* formState.errors *)
  alert : alert_info;                 (* the useState of the banner *)
  pending : list jsobj }.             (* bodies of the requests in flight *)

Definition initial_state : state := mk_state empty_form [] no_alert [].

(** How an [axios.post] promise settles: fulfilled with a 2xx response
    (its [data]), or rejected with an error that has a [response] (its
    [data]) or none (network failure). *)
Inductive http_result :=
  | HttpOk (data : jsval)
  | HttpError (response : option jsval).

(** ** [onSubmit] *)

Definition with_alert (a : alert_info) (s : state) : state :=
  mk_state (values s) (errors s) a (pending s).

(** [reset()]: every field back to empty, errors cleared. *)
Definition reset (s : state) : state := mk_state empty_form [] (alert s) (pending s).

(** The part before the [await]: clear the banner and the errors, build
    [postData], send it. *)
Definition submit_start (data : form) (s : state) : state :=
  mk_state (values s) [] no_alert (pending s ++ [post_data data]).

Definition fallback_message : jsval := JStr (js "An error occurred").

(** The [catch] block for an [error]:
    [error.response?.data.description || 'An error occurred'].
    [resp] is [error.response]; reading [description] of a [null] or
    [undefined] [data] throws out of the handler, and the banner keeps
    what it had. *)
Definition on_error (resp : option jsval) (s : state) : state :=
  let description := match resp with
                     | None => Some JUndefined
                     | Some data => get_prop data (js "description")
                     end in
  match description with
  | Some d => with_alert (mk_alert (js_or d fallback_message) (js "danger")) s
  | None => s
  end.

(** The part after the [await].  On a 2xx response,
    [response.data.description] becomes the banner and the form is reset;
    if reading it throws, the [catch] block runs with that TypeError,
    which has no [response]. *)
Definition submit_finish (r : http_result) (s : state) : state :=
  match r with
  | HttpOk data =>
      match get_prop data (js "description") with
      | Some d => reset (with_alert (mk_alert d (js "success")) s)
      | None => on_error None s
      end
  | HttpError resp => on_error resp s
  end.

(** [handleSubmit(onSubmit)]: validate every field; with errors, show them
    and stop; otherwise run [onSubmit] with the current values. *)
Definition handle_submit (s : state) : state :=
  match validate_all (values s) with
  | [] => submit_start (values s) s
  | errs => mk_state (values s) errs (alert s) (pending s)
  end.

(** Whether the banner is rendered: [{alertInfo.message && <Alert ...>}]. *)
Definition banner_visible (s : state) : bool := truthy (alert_message (alert s)).

(** ** Events and steps *)

Inductive event :=
  | EvEdit (f : field) (x : jsstr)          (* the user changes a control *)
  | EvSubmit                                (* the submit button *)
  | EvSettle (i : nat) (r : http_result)    (* the i-th request in flight settles *)
  | EvCancel.                               (* the Cancel button *)

Definition in_options (x : jsstr) (opts : list jsstr) : bool := existsb (js_eqb x) opts.

Fixpoint remove_nth {A} (i : nat) (l : list A) : list A :=
  match i, l with
  | _, [] => []
  | 0, _ :: l' => l'
  | S i', x :: l' => x :: remove_nth i' l'
  end.

(** The Cancel button has no [onClick], and a react-bootstrap [Button]
    renders [type='button'], so a click neither submits nor resets. *)
Definition on_cancel (s : state) : state := s.

(** One step of the workflow; [None] when the event cannot happen (a
    select set to a value it does not offer, or no such request). *)
Definition step (current_year : Z) (s : state) (e : event) : option state :=
  match e with
  | EvEdit f x =>
      match field_options current_year f with
      | Some opts => if in_options x opts then Some (mk_state (set f x (values s)) (errors s) (alert s) (pending s))
                     else None
      | None => Some (mk_state (set f x (values s)) (errors s) (alert s) (pending s))
      end
  | EvSubmit => Some (handle_submit s)
  | EvSettle i r =>
      match nth_error (pending s) i with
      | Some _ => Some (submit_finish r (mk_state (values s) (errors s) (alert s) (remove_nth i (pending s))))
      | None => None
      end
  | EvCancel => Some (on_cancel s)
  end.

Fixpoint run (current_year : Z) (s : state) (es : list event) : option state :=
  match es with
  | [] => Some s
  | e :: es' => match step current_year s e with
                | Some s' => run current_year s' es'
                | None => None
                end
  end.

Inductive reachable (current_year : Z) : state -> Prop :=
  | reach_init : reachable current_year initial_state
  | reach_step s e s' : reachable current_year s -> step current_year s e = Some s' ->
                        reachable current_year s'.

(** ** Invariant of the reachable states *)

(** A body in flight is the payload of values that passed validation. *)
Definition payload_validated (p : jsobj) : Prop :=
  exists v, validate_all v = [] /\ p = post_data v.

Definition selects_in_options (current_year : Z) (v : form) : Prop :=
  forall f opts, field_options current_year f = Some opts -> In (get f v) opts.

Definition alert_type_ok (a : alert_info) : Prop :=
  alert_type a = [] \/ alert_type a = js "success" \/ alert_type a = js "danger".

Definition inv (current_year : Z) (s : state) : Prop :=
  Forall payload_validated (pending s) /\ selects_in_options current_year (values s) /\
  alert_type_ok (alert s).

(** ** Refinement of the specified [submit] contract *)

(** The specification's view of a response: success with a description,
    failure with or without one. *)
Inductive response := ROk (desc : jsstr) | RErr (desc : option jsstr).

Inductive outcome := Success (msg : jsstr) | Failure (msg : jsstr).

(** [submit(payload) -> SubmissionOutcome]: success carries the server's
    message; failure carries it when there is one, else the generic one. *)
Definition spec_submit (r : response) : outcome :=
  match r with
  | ROk d => Success d
  | RErr (Some ((_ :: _) as d)) => Failure d
  | RErr _ => Failure (js "An error occurred")
  end.

(** The effect the specification gives each outcome: the banner, and a
    reset of the form on success only. *)
Definition apply_outcome (o : outcome) (s : state) : state :=
  match o with
  | Success m => reset (with_alert (mk_alert (JStr m) (js "success")) s)
  | Failure m => with_alert (mk_alert (JStr m) (js "danger")) s
  end.

(** A response as axios delivers it: a JSON object body with a string
    [description] (or none, for a failure without body). *)
Definition concretize (r : response) : http_result :=
  match r with
  | ROk d => HttpOk (JObj [(js "description", JStr d)])
  | RErr (Some d) => HttpError (Some (JObj [(js "description", JStr d)]))
  | RErr None => HttpError None
  end.

Definition outcome_alert (o : outcome) : alert_info :=
  match o with
  | Success m => mk_alert (JStr m) (js "success")
  | Failure m => mk_alert (JStr m) (js "danger")
  end.

(** ** The specification's scenarios *)

(** Filling every control with the values of a form, in registration order. *)
Definition fill_events (v : form) : list event :=
  map (fun f => EvEdit f (get f v)) registered_fields.

Definition scenario_a_form : form :=
  mk_form (js "Jane Doe") (js "(416) 555-0199") (js "15") (js "06") (js "1990")
          (js "jane@example.com") (js "Abcdef12") (js "Abcdef12").

Definition user_created : http_result :=
  HttpOk (JObj [(js "description", JStr (js "User created"))]).

Lemma in_options_In x opts : in_options x opts = true -> In x opts.
Proof.
  unfold in_options. rewrite existsb_exists. intros (y & Hy & E).
  apply js_eqb_eq in E. now subst.
Qed.

Lemma Forall_remove_nth {A} (P : A -> Prop) i l : Forall P l -> Forall P (remove_nth i l).
Proof.
  revert i; induction l as [|x l IH]; intros [|i] H; simpl; auto;
    inversion H; subst; auto.
Qed.

Lemma empty_form_in_options cy : selects_in_options cy empty_form.
Proof. intros [] opts H; simpl in H; try discriminate; injection H as <-; now left. Qed.

Lemma selects_set cy v f x :
  selects_in_options cy v ->
  (forall opts, field_options cy f = Some opts -> In x opts) ->
  selects_in_options cy (set f x v).
Proof.
  intros Hv Hx g opts Hg. destruct (field_eq_dec f g) as [<-|Hne].
  - rewrite get_set_eq. auto.
  - rewrite get_set_ne by exact Hne. eauto.
Qed.

Lemma on_error_inv cy resp s : inv cy s -> inv cy (on_error resp s).
Proof.
  intros (Hp & Hv & Ha). unfold on_error.
  destruct (match resp with Some data => _ | None => _ end); [|now split].
  repeat split; auto. simpl. unfold alert_type_ok. auto.
Qed.

Lemma submit_finish_inv cy r s : inv cy s -> inv cy (submit_finish r s).
Proof.
  intros H. destruct r as [data|resp]; simpl; [|now apply on_error_inv].
  destruct (get_prop data (js "description")); [|now apply on_error_inv].
  destruct H as (Hp & _ & _). repeat split; auto.
  - apply empty_form_in_options.
  - unfold alert_type_ok; simpl; auto.
Qed.

(** Every step keeps the invariant. *)
Theorem step_inv cy s e s' : inv cy s -> step cy s e = Some s' -> inv cy s'.
Proof.
  intros H Hs. destruct H as (Hp & Hv & Ha). destruct e as [f x| |i r|]; simpl in Hs.
  - destruct (field_options cy f) as [opts|] eqn:Ef;
      [destruct (in_options x opts) eqn:Ex; [|discriminate]|];
      injection Hs as <-; repeat split; simpl; auto; apply selects_set; auto;
      intros opts' Hf; [rewrite Ef in Hf; injection Hf as <-; now apply in_options_In
                       | congruence].
  - injection Hs as <-. unfold handle_submit.
    destruct (validate_all (values s)) eqn:E.
    + repeat split; simpl; auto.
      * apply Forall_app. split; [exact Hp|]. constructor; [|constructor].
        exists (values s). auto.
      * unfold alert_type_ok; simpl; auto.
    + repeat split; auto.
  - destruct (nth_error (pending s) i); [|discriminate]. injection Hs as <-.
    apply submit_finish_inv. repeat split; auto. now apply Forall_remove_nth.
  - injection Hs as <-. repeat split; assumption.
Qed.

(** C2: In every state reachable from the initial one by edits, submits and
    settlements, the invariant [inv] holds: every request in flight carries
    the payload of values that passed validation, each select holds one of
    its options, and the banner type is empty, success or danger. *)
Theorem reachable_inv cy s : reachable cy s -> inv cy s.
Proof.
  induction 1 as [|s e s' _ IH Hs].
  - repeat split; [constructor | apply empty_form_in_options | left; reflexivity].
  - eapply step_inv; eauto.
Qed.

(** ** Behaviour of each branch *)

(** C8: With a validation error nothing is sent, the errors are shown, and the
    banner of the previous attempt stays. *)
Theorem handle_submit_invalid s :
  validate_all (values s) <> [] ->
  handle_submit s = mk_state (values s) (validate_all (values s)) (alert s) (pending s).
Proof. unfold handle_submit. destruct (validate_all (values s)); congruence. Qed.

(** C9: With no error, the banner and the errors are cleared and exactly one
    request is sent, with the payload of the current values. *)
Theorem handle_submit_valid s :
  validate_all (values s) = [] ->
  handle_submit s = mk_state (values s) [] no_alert (pending s ++ [post_data (values s)]).
Proof. unfold handle_submit. now intros ->. Qed.

(** C3: The continuation of [onSubmit] implements the specified [submit]
    contract: on every response the contract describes, the state after it
    is the one the abstract outcome prescribes (success banner and reset,
    or danger banner with the server's or the generic message). *)
Theorem submit_finish_refines r s :
  submit_finish (concretize r) s = apply_outcome (spec_submit r) s.
Proof. destruct r as [d|[[|c d]|]]; reflexivity. Qed.

(** ** Responses the contract does not describe *)

(** C14: A 2xx response whose body has no [description]: the form is reset but
    the banner is not shown ([message] is [undefined]). *)
Theorem finish_ok_without_description s ps :
  obj_get ps (js "description") = JUndefined ->
  submit_finish (HttpOk (JObj ps)) s =
  mk_state empty_form [] (mk_alert JUndefined (js "success")) (pending s) /\
  banner_visible (submit_finish (HttpOk (JObj ps)) s) = false.
Proof. intros H. simpl. rewrite H. split; reflexivity. Qed.

(** C15: A 2xx response with a [null] or [undefined] body: reading [description] throws inside
    the [try], so the generic error banner is shown and nothing is reset. *)
Theorem finish_ok_unreadable_body s data :
  data = JNull \/ data = JUndefined ->
  submit_finish (HttpOk data) s = with_alert (mk_alert fallback_message (js "danger")) s.
Proof. intros [-> | ->]; reflexivity. Qed.

(** C16: An error response with a [null] or [undefined] body: the [catch] block itself throws,
    the handler's promise rejects, and the state is left as it was (the
    banner stays cleared by the start of [onSubmit]). *)
Theorem finish_error_unreadable_body s data :
  data = JNull \/ data = JUndefined ->
  submit_finish (HttpError (Some data)) s = s.
Proof. intros [-> | ->]; reflexivity. Qed.

(** ** Interleavings *)

Lemma step_submit_valid cy s :
  validate_all (values s) = [] ->
  step cy s EvSubmit = Some (mk_state (values s) [] no_alert (pending s ++ [post_data (values s)])).
Proof. intros H. simpl. unfold handle_submit. now rewrite H. Qed.

(** C11: No in-flight guard: submitting twice sends two identical requests. *)
Theorem double_submit cy s :
  validate_all (values s) = [] ->
  exists s', run cy s [EvSubmit; EvSubmit] = Some s' /\
             pending s' = pending s ++ [post_data (values s); post_data (values s)].
Proof.
  intros H. unfold run. rewrite step_submit_valid by exact H.
  rewrite step_submit_valid by exact H.
  eexists. split; [reflexivity|]. simpl. now rewrite <- app_assoc.
Qed.

Lemma pending_submit_finish r s : pending (submit_finish r s) = pending s.
Proof.
  unfold submit_finish, on_error.
  destruct r as [d|[d|]]; [destruct (get_prop d _) | destruct (get_prop d _) |]; reflexivity.
Qed.

Lemma alert_finish_concretize a s :
  alert (submit_finish (concretize a) s) = outcome_alert (spec_submit a).
Proof. destruct a as [d|[[|c d]|]]; reflexivity. Qed.

(** C10: The banner shows the outcome of the request that settled last, whatever
    the order the requests were sent in: with two requests in flight, if
    the second settles first, the first one's outcome is what stays. *)
Theorem last_settled_wins cy s p0 p1 a0 a1 s' :
  pending s = [p0; p1] ->
  run cy s [EvSettle 1 (concretize a1); EvSettle 0 (concretize a0)] = Some s' ->
  alert s' = outcome_alert (spec_submit a0) /\ pending s' = [].
Proof.
  intros Hp Hrun. simpl in Hrun. rewrite Hp in Hrun. simpl in Hrun.
  rewrite pending_submit_finish in Hrun. simpl in Hrun. injection Hrun as <-.
  rewrite alert_finish_concretize, pending_submit_finish. split; reflexivity.
Qed.

(** C20: Every request in flight settles: whatever the responses are,
    settling the oldest pending request once per request leaves no request
    pending; no response blocks the workflow. *)
Theorem settle_all_drains cy s rs :
  length rs = length (pending s) ->
  exists s', run cy s (map (EvSettle 0) rs) = Some s' /\ pending s' = [].
Proof.
  revert s. induction rs as [|r rs IH]; intros s Hlen.
  - exists s. split; [reflexivity|]. now destruct (pending s).
  - destruct (pending s) as [|p ps] eqn:Ep; [discriminate|]. simpl in Hlen.
    simpl. rewrite Ep. simpl.
    apply IH. rewrite pending_submit_finish. simpl. lia.
Qed.

(** ** Witnesses *)

Lemma reachable_inv_witness : inv 2026 (handle_submit initial_state).
Proof.
  apply (reachable_inv 2026 (handle_submit initial_state)).
  apply (reach_step 2026 initial_state EvSubmit); [constructor | reflexivity].
Defined.

Lemma handle_submit_invalid_witness :
  let s := mk_state (set Email (js "not-an-email") scenario_a_form) [] no_alert [] in
  handle_submit s = mk_state (values s) (validate_all (values s)) (alert s) (pending s).
Proof.
  intros s. apply handle_submit_invalid. intros H. vm_compute in H. discriminate H.
Defined.

Lemma handle_submit_valid_witness :
  let s := mk_state scenario_a_form [] no_alert [] in
  handle_submit s = mk_state (values s) [] no_alert (pending s ++ [post_data (values s)]).
Proof. intros s. apply handle_submit_valid. vm_compute. reflexivity. Defined.

Lemma double_submit_witness :
  exists s', run 2026 (mk_state scenario_a_form [] no_alert []) [EvSubmit; EvSubmit] = Some s' /\
    pending s' = [] ++ [post_data scenario_a_form; post_data scenario_a_form].
Proof. apply (double_submit 2026 (mk_state scenario_a_form [] no_alert [])). vm_compute. reflexivity. Defined.

Lemma last_settled_wins_witness :
  let s := mk_state empty_form [] no_alert [post_data scenario_a_form; post_data scenario_a_form] in
  exists s', run 2026 s [EvSettle 1 (concretize (ROk (js "second")));
                         EvSettle 0 (concretize (RErr None))] = Some s' /\
    alert s' = outcome_alert (spec_submit (RErr None)) /\ pending s' = [].
Proof.
  intros s. eexists. split; [reflexivity|].
  apply (last_settled_wins 2026 s (post_data scenario_a_form) (post_data scenario_a_form)
           (RErr None) (ROk (js "second"))); reflexivity.
Defined.

Lemma finish_ok_without_description_witness :
  submit_finish (HttpOk (JObj [(js "id", JNum 7)])) initial_state =
    mk_state empty_form [] (mk_alert JUndefined (js "success")) (pending initial_state) /\
  banner_visible (submit_finish (HttpOk (JObj [(js "id", JNum 7)])) initial_state) = false.
Proof. apply finish_ok_without_description. reflexivity. Defined.

Lemma finish_ok_unreadable_body_witness :
  submit_finish (HttpOk JNull) initial_state =
  with_alert (mk_alert fallback_message (js "danger")) initial_state.
Proof. apply finish_ok_unreadable_body. left. reflexivity. Defined.

Lemma finish_error_unreadable_body_witness :
  submit_finish (HttpError (Some JUndefined)) initial_state = initial_state.
Proof. apply finish_error_unreadable_body. right. reflexivity. Defined.

Lemma settle_all_drains_witness :
  exists s', run 2026 (mk_state scenario_a_form [] no_alert [post_data scenario_a_form; []])
               (map (EvSettle 0) [HttpError None; user_created]) = Some s' /\ pending s' = [].
Proof. apply settle_all_drains. reflexivity. Defined.
