(* ===== verification/Revalidate.v ===== *)
(** react-hook-form around the workflow of [Submission]: the
    [formState.isSubmitted] flag and the change handler of [register] with
    the default modes of [useForm()] (mode ['onSubmit'], reValidateMode
    ['onChange']).  Before the form has been submitted a change validates
    nothing; afterwards a change validates the changed field and the fields
    of its [deps] option, which no [register] call of the form gives.  [handleSubmit] sets [isSubmitted] when
    the validation fails, or when [onSubmit] has run to its end, that is
    when its request settles, after the [reset()] of a success. *)
From Stdlib Require Import List Bool Arith Lia ZArith.
From S2P Require Import Prelude JsString Form Validation JsValue Payload Submission.
Import ListNotations.

(** ** State and operations *)

Record rhf_state := mk_rhf { form_state : state; is_submitted : bool }.

Definition rhf_initial : rhf_state := mk_rhf initial_state false.

(** [set(errors, name, error)]: an existing entry keeps its place. *)
Fixpoint errors_set (errs : list (field * jsstr)) (f : field) (m : jsstr) : list (field * jsstr) :=
  match errs with
  | [] => [(f, m)]
  | (g, m') :: errs' => if field_eq_dec f g then (g, m) :: errs' else (g, m') :: errors_set errs' f m
  end.

(** [unset(errors, name)]. *)
Definition errors_unset (errs : list (field * jsstr)) (f : field) : list (field * jsstr) :=
  filter (fun p => if field_eq_dec (fst p) f then false else true) errs.

Definition update_error (errs : list (field * jsstr)) (f : field) (e : option jsstr) :=
  match e with
  | Some m => errors_set errs f m
  | None => errors_unset errs f
  end.

(** [errors.<name>?.message], the feedback under a control. *)
Fixpoint shown_error (errs : list (field * jsstr)) (f : field) : option jsstr :=
  match errs with
  | [] => None
  | (g, m) :: errs' => if field_eq_dec f g then Some m else shown_error errs' f
  end.

(** [validateField] of one field and the update of its entry in
    [errors]. *)
Definition revalidate_one (g : field) (s : state) : state :=
  mk_state (values s) (update_error (errors s) g (field_error (values s) g)) (alert s) (pending s).

(** The change handler's validation: the changed field, then the fields
    its [deps] option names ([trigger(deps)]). *)
Definition revalidate (f : field) (s : state) : state :=
  fold_left (fun s g => revalidate_one g s) (deps (form_rules f)) (revalidate_one f s).

(** One event, with the library's part around [step]. *)
Definition rhf_step (current_year : Z) (r : rhf_state) (e : event) : option rhf_state :=
  match step current_year (form_state r) e with
  | None => None
  | Some s' =>
      Some match e with
           | EvEdit f _ => mk_rhf (if is_submitted r then revalidate f s' else s') (is_submitted r)
           | EvSubmit =>
               match validate_all (values (form_state r)) with
               | [] => mk_rhf s' (is_submitted r)
               | _ :: _ => mk_rhf s' true
               end
           | EvSettle _ _ => mk_rhf s' true
           | EvCancel => mk_rhf s' (is_submitted r)
           end
  end.

Fixpoint rhf_run (current_year : Z) (r : rhf_state) (es : list event) : option rhf_state :=
  match es with
  | [] => Some r
  | e :: es' => match rhf_step current_year r e with
                | Some r' => rhf_run current_year r' es'
                | None => None
                end
  end.

(** A form whose passwords differ, the one of the stale-error scenario. *)
Definition mismatched_form : form :=
  set ConfirmPassword (js "Abcdef13") scenario_a_form.

(** ** Errors as a map from fields *)

Lemma shown_error_set_eq errs f m : shown_error (errors_set errs f m) f = Some m.
Proof.
  induction errs as [|[g m'] errs IH]; simpl.
  - destruct (field_eq_dec f f); congruence.
  - destruct (field_eq_dec f g) as [->|Hne]; simpl.
    + now destruct (field_eq_dec g g).
    + destruct (field_eq_dec f g); [contradiction | exact IH].
Qed.

Lemma shown_error_set_ne errs f g m : g <> f ->
  shown_error (errors_set errs f m) g = shown_error errs g.
Proof.
  intros Hne. induction errs as [|[h m'] errs IH]; simpl.
  - destruct (field_eq_dec g f); [contradiction | reflexivity].
  - destruct (field_eq_dec f h) as [->|Hfh]; simpl;
      destruct (field_eq_dec g h); congruence.
Qed.

Lemma shown_error_unset_eq errs f : shown_error (errors_unset errs f) f = None.
Proof.
  induction errs as [|[g m] errs IH]; simpl; [reflexivity|].
  destruct (field_eq_dec g f) as [->|Hne]; simpl; [exact IH|].
  destruct (field_eq_dec f g); [congruence | exact IH].
Qed.

Lemma shown_error_unset_ne errs f g : g <> f ->
  shown_error (errors_unset errs f) g = shown_error errs g.
Proof.
  intros Hne. induction errs as [|[h m] errs IH]; simpl; [reflexivity|].
  destruct (field_eq_dec h f) as [->|Hhf]; simpl.
  - destruct (field_eq_dec g f); [contradiction | exact IH].
  - destruct (field_eq_dec g h); [reflexivity | exact IH].
Qed.

Lemma shown_error_update_eq errs f e : shown_error (update_error errs f e) f = e.
Proof. destruct e; simpl; [apply shown_error_set_eq | apply shown_error_unset_eq]. Qed.

Lemma shown_error_update_ne errs f g e : g <> f ->
  shown_error (update_error errs f e) g = shown_error errs g.
Proof. destruct e; simpl; [apply shown_error_set_ne | apply shown_error_unset_ne]. Qed.

(** ** The edit step *)

Lemma rhf_step_edit cy r f x r' : rhf_step cy r (EvEdit f x) = Some r' ->
  exists s', step cy (form_state r) (EvEdit f x) = Some s' /\
    r' = mk_rhf (if is_submitted r then revalidate f s' else s') (is_submitted r).
Proof.
  unfold rhf_step. destruct (step cy (form_state r) (EvEdit f x)) as [s'|]; [|discriminate].
  intros H; injection H as <-. eauto.
Qed.

Lemma step_edit_errors cy s f x s' : step cy s (EvEdit f x) = Some s' ->
  errors s' = errors s /\ values s' = set f x (values s).
Proof.
  simpl. destruct (field_options cy f) as [opts|]; [destruct (in_options x opts)|];
    intros H; try discriminate; injection H as <-; split; reflexivity.
Qed.

(** ** Properties *)

(** C21: No [register] call of the form passes [deps], so a change
    re-validates no other field.  In particular a change of [password]
    leaves the verdict under [confirm_password] as it was, although that
    verdict depends on [password]: the message can be stale until the next
    submit or a change of [confirm_password]. *)
Theorem edit_keeps_other_errors cy r f x r' g :
  g <> f -> rhf_step cy r (EvEdit f x) = Some r' ->
  shown_error (errors (form_state r')) g = shown_error (errors (form_state r)) g.
Proof.
  intros Hne H. apply rhf_step_edit in H as (s' & Hs & ->).
  destruct (step_edit_errors _ _ _ _ _ Hs) as [He _].
  destruct (is_submitted r); simpl; [|now rewrite He].
  unfold revalidate. replace (deps (form_rules f)) with (@nil field) by (destruct f; reflexivity).
  simpl. rewrite shown_error_update_ne by exact Hne. now rewrite He.
Qed.

(** ** Scenarios *)

(** Passwords that differ are refused; correcting [password] to the
    confirmation leaves the refusal shown, though the values now pass. *)
Example stale_confirm_error :
  match rhf_run 2026 rhf_initial (fill_events mismatched_form ++ [EvSubmit; EvEdit Password (js "Abcdef13")]) with
  | Some r => shown_error (errors (form_state r)) ConfirmPassword = Some (js "The passwords do not match")
              /\ validate_all (values (form_state r)) = [] /\ pending (form_state r) = []
  | None => False
  end.
Proof. vm_compute. repeat split. Qed.

(** After a success, the first keystroke in the emptied e-mail field
    already shows the format message. *)
Example edit_after_success :
  match rhf_run 2026 rhf_initial (fill_events scenario_a_form ++
          [EvSubmit; EvSettle 0 user_created; EvEdit Email (js "j")]) with
  | Some r => shown_error (errors (form_state r)) Email = Some (js "Invalid email format")
  | None => False
  end.
Proof. vm_compute. reflexivity. Qed.

(** ** Witnesses *)

Lemma edit_keeps_other_errors_witness :
  let r := mk_rhf (mk_state mismatched_form [(ConfirmPassword, js "The passwords do not match")] no_alert []) true in
  exists r', rhf_step 2026 r (EvEdit Password (js "Abcdef13")) = Some r' /\
    shown_error (errors (form_state r')) ConfirmPassword = Some (js "The passwords do not match").
Proof.
  intros r. eexists. split; [reflexivity|].
  rewrite (edit_keeps_other_errors 2026 r Password (js "Abcdef13")); [reflexivity | discriminate | reflexivity].
Defined.

